(** * s3gof3r: the public facade (s3gof3r.go)

    A shallow embedding of the account, bucket and configuration types and
    of the entry points [New], [Bucket], [GetReader], [PutWriter] and [Url].

    Go pointers are addresses into typed stores (nil is [None]); the two
    entry points mutate the configuration they are handed through such a
    pointer, so they are written in a state monad over the stores.  A Go
    panic ends a computation with the stores as they were when it was
    raised.

    The downloader, the uploader and [ClientWithTimeout] live in other
    files of the package; what the entry points need of them is modelled
    from the specification, and marked so.  Of Go's [net/url.Parse] the
    fragment split, the check for control characters and [getscheme] are
    written out, the rest is a parameter. *)

From Stdlib Require Import ssreflect ZArith String Ascii.
From Stdlib.Strings Require Import Byte.
From stdpp Require Import base option list gmap strings.

Local Open Scope string_scope.

(** ** Values *)

Definition loc := positive.

(** A Go pointer: [None] is nil. *)
Abbreviation pointer := (option loc).

(** [http.Header] is [map[string][]string]. *)
Abbreviation Header := (gmap string (list string)).

(** Go [error] values; a nil [error] is [None]. *)
Inductive error_value :=
| errorString (msg : string)
| url_Error (Op : string) (URL : string) (Err : error_value).

Abbreviation error := (option error_value).

Inductive panic_value :=
| PanicError (e : error_value)      (* panic(err) *)
| NilDereference.                   (* runtime error: nil pointer dereference *)

(** [net/url.URL] *)
Record Userinfo := mkUserinfo { username : string; password : option string }.

Record URL := mkURL {
  URL_Scheme : string;
  URL_Opaque : string;
  URL_User : option Userinfo;
  URL_Host : string;
  URL_Path : string;
  URL_RawQuery : string;
  URL_Fragment : string
}.

(** [type Keys struct { AccessKey string; SecretKey string }] *)
Record Keys := mkKeys { AccessKey : string; SecretKey : string }.

(** [type S3 struct { Domain string; Keys }] *)
Record S3 := mkS3 { Domain : string; S3_Keys : Keys }.

(** [type Bucket struct { *S3; Name string }] *)
Record Bucket := mkBucket { Bucket_S3 : pointer; Name : string }.

(** [type Config struct { *http.Client; Concurrency int; PartSize int64;
    NTry int; Md5Check bool; Scheme string }] *)
Record Config := mkConfig {
  Client : pointer;
  Concurrency : Z;
  PartSize : Z;
  NTry : Z;
  Md5Check : bool;
  Scheme : string
}.

(** The only thing the facade fixes about an [http.Client] is its timeout
    (a [time.Duration], in nanoseconds). *)
Record http_Client := mkClient { Timeout : Z }.

(** Modelled from the spec: the transport ("send request, get
    status/headers/body or network error") is outside the sources; a
    request is its method, URL and headers, and the answer is the headers
    and the body, or an error. *)
Record Request := mkRequest {
  Method : string;
  ReqURL : URL;
  ReqHeader : Header
}.

Record Response := mkResponse {
  RespHeader : Header;
  Body : list byte
}.

(** ** The stores

    Besides the typed stores the world holds the package variable
    [var DefaultDomain] (line 53): it is assignable, and [New] reads it
    when it is called. *)

Record World := mkWorld {
  DefaultDomain : string;
  s3s : gmap loc S3;
  buckets : gmap loc Bucket;
  configs : gmap loc Config;
  clients : gmap loc http_Client;
  service : Request -> error_value + Response;
  sent : list Request
}.

Definition set_s3s (f : gmap loc S3 -> gmap loc S3) (w : World) : World :=
  mkWorld (DefaultDomain w) (f (s3s w)) (buckets w) (configs w) (clients w) (service w) (sent w).

Definition set_buckets (f : gmap loc Bucket -> gmap loc Bucket) (w : World) : World :=
  mkWorld (DefaultDomain w) (s3s w) (f (buckets w)) (configs w) (clients w) (service w) (sent w).

Definition set_configs (f : gmap loc Config -> gmap loc Config) (w : World) : World :=
  mkWorld (DefaultDomain w) (s3s w) (buckets w) (f (configs w)) (clients w) (service w) (sent w).

Definition set_clients (f : gmap loc http_Client -> gmap loc http_Client) (w : World) : World :=
  mkWorld (DefaultDomain w) (s3s w) (buckets w) (configs w) (f (clients w)) (service w) (sent w).

(** [DefaultDomain = d], as a user of the package may write. *)
Definition set_DefaultDomain (d : string) (w : World) : World :=
  mkWorld d (s3s w) (buckets w) (configs w) (clients w) (service w) (sent w).

Definition set_sent (f : list Request -> list Request) (w : World) : World :=
  mkWorld (DefaultDomain w) (s3s w) (buckets w) (configs w) (clients w) (service w) (f (sent w)).

(** ** The monad: state, and panics *)

Inductive outcome (A : Type) :=
| Returned (a : A)
| Panicked (p : panic_value).
Arguments Returned {A} a.
Arguments Panicked {A} p.

Definition M (A : Type) : Type := World -> World * outcome A.

Definition ret {A} (a : A) : M A := fun w => (w, Returned a).

Definition panic {A} (p : panic_value) : M A := fun w => (w, Panicked p).

Definition bind {A B} (m : M A) (k : A -> M B) : M B :=
  fun w =>
    match m w with
    | (w', Returned a) => k a w'
    | (w', Panicked p) => (w', Panicked p)
    end.

Notation "x <- m ;; k" := (bind m (fun x => k))
  (at level 100, m at next level, right associativity,
   format "'[v' x  <-  m  ;; '/' k ']'").

Definition modify (f : World -> World) : M unit := fun w => (f w, Returned tt).

(** The world a computation leaves behind, and what it produced. *)
Definition exec {A} (m : M A) (w : World) : World := fst (m w).
Definition eval {A} (m : M A) (w : World) : outcome A := snd (m w).

(** Dereferencing: nil, or an address that holds nothing, panics. *)
Definition deref {V} (store : World -> gmap loc V) (p : pointer) : M V :=
  fun w =>
    match p ≫= (fun l => store w !! l) with
    | Some v => (w, Returned v)
    | None => (w, Panicked NilDereference)
    end.

(** [&T{...}]: a fresh address of the store. *)
Definition new_loc {V} (m : gmap loc V) : loc := fresh (dom m).

(** ** Constants *)

(** Modelled from the spec: the constant [mb] is declared in another file
    of the package; the spec gives the default part size as 20 MiB, which
    makes [mb] one mebibyte. *)
Definition mb : Z := Z.shiftl 1 20.

(** [time.Second], in nanoseconds. *)
Definition time_Second : Z := 1000000000.

(** [const clientTimeout = 5 * time.Second] *)
Definition clientTimeout : Z := 5 * time_Second.

(** [var DefaultDomain = "s3.amazonaws.com"]: the value the variable is
    initialised with. *)
Definition DefaultDomain_init : string := "s3.amazonaws.com".

(** [var DefaultConfig = &Config{...}]: the package-level pointer, and the
    value it points to when the package is initialised. *)
Definition DefaultConfig : loc := 1%positive.

Definition DefaultConfig_init : Config :=
  {| Client := None;
     Concurrency := 10;
     PartSize := 20 * mb;
     NTry := 10;
     Md5Check := true;
     Scheme := "https" |}.

(** The world right after package initialisation, over a given service. *)
Definition init_World (srv : Request -> error_value + Response) : World :=
  {| DefaultDomain := DefaultDomain_init;
     s3s := ∅; buckets := ∅;
     configs := {[ DefaultConfig := DefaultConfig_init ]};
     clients := ∅; service := srv; sent := [] |}.

(** ** [net/url.Parse]

    The Go library splits the fragment off, refuses a control character
    in what is left, reads the scheme with [getscheme], and goes on to the
    authority, the path and the query.  The first three steps are written
    out; what follows them is a parameter [parse_rest] of the development
    (it is handed the text before the fragment, the scheme, the text after
    the scheme and the fragment, and answers with the URL or with the
    cause of the failure). *)

(** [split(s, c, true)]: [s] cut at the first [c], which is dropped. *)
Fixpoint split_cut (c : ascii) (s : string) : string * string :=
  match s with
  | EmptyString => (EmptyString, EmptyString)
  | String a s' =>
      if Ascii.eqb a c then (EmptyString, s')
      else let (l, r) := split_cut c s' in (String a l, r)
  end.

Definition between (lo hi c : ascii) : bool :=
  (nat_of_ascii lo <=? nat_of_ascii c)%nat && (nat_of_ascii c <=? nat_of_ascii hi)%nat.

Definition is_letter (c : ascii) : bool :=
  between "a" "z" c || between "A" "Z" c.

Definition is_scheme_mark (c : ascii) : bool :=
  between "0" "9" c || Ascii.eqb c "+" || Ascii.eqb c "-" || Ascii.eqb c ".".

(** The loop of [getscheme], at index [i] with [s = rawurl[i:]]. *)
Fixpoint getscheme_at (rawurl : string) (i : nat) (s : string)
  : error_value + string * string :=
  match s with
  | EmptyString => inr (EmptyString, rawurl)
  | String c s' =>
      if is_letter c then getscheme_at rawurl (S i) s'
      else if is_scheme_mark c then
        match i with
        | O => inr (EmptyString, rawurl)
        | S _ => getscheme_at rawurl (S i) s'
        end
      else if Ascii.eqb c ":" then
        match i with
        | O => inl (errorString "missing protocol scheme")
        | S _ => inr (String.substring 0 i rawurl, s')
        end
      else inr (EmptyString, rawurl)
  end.

Definition getscheme (rawurl : string) : error_value + string * string :=
  getscheme_at rawurl 0 rawurl.

(** [stringContainsCTLByte]: a byte below the space, or 0x7f. *)
Definition is_CTL (c : ascii) : bool :=
  (nat_of_ascii c <? 32)%nat || (nat_of_ascii c =? 127)%nat.

Fixpoint stringContainsCTLByte (s : string) : bool :=
  match s with
  | EmptyString => false
  | String c s' => is_CTL c || stringContainsCTLByte s'
  end.

Definition url_Parse
    (parse_rest : string -> string -> string -> string -> error_value + URL)
    (rawurl : string) : error_value + URL :=
  let (u, frag) := split_cut "#" rawurl in
  if stringContainsCTLByte u then
    inl (url_Error "parse" u
           (errorString "net/url: invalid control character in URL"))
  else
    match getscheme u with
    | inl err => inl (url_Error "parse" u err)
    | inr (scheme, rest) => parse_rest u scheme rest frag
    end.

(** A stand-in for the rest of the parser, used to run the entry points on
    concrete inputs: the host runs up to the first slash, nothing is
    unescaped and nothing is refused. *)
Definition plain_rest (u scheme rest frag : string) : error_value + URL :=
  match rest with
  | String "/" (String "/" r) =>
      let (host, p) := split_cut "/" r in
      inr (mkURL scheme EmptyString None host (String "/" p) EmptyString frag)
  | _ => inr (mkURL scheme rest None EmptyString EmptyString EmptyString frag)
  end.

(** ** The parts of the package the facade calls into *)

(** Modelled from the spec: the transfer sessions (getter.go and
    putter.go are not among the sources), as far as the entry points
    determine them: the URL, the configuration "captured at transfer
    start", the bucket, and what the opening request brought back. *)
Record getter := mkGetter {
  g_url : URL;
  g_c : Config;          (* the configuration of the transfer *)
  g_b : pointer;
  g_length : nat         (* object length, from the initial response *)
}.

Record putter := mkPutter {
  p_url : URL;
  p_header : Header;     (* the caller's headers *)
  p_c : Config;
  p_b : pointer;
  p_UploadId : list byte
}.

(** Modelled from the spec: handing a request to the transport; it is
    recorded in [sent], and the service's answer comes back. *)
Definition send (r : Request) : M (error_value + Response) :=
  fun w => (set_sent (fun l => (l ++ [r])%list) w, Returned (service w r)).

(** Modelled from the spec: [ClientWithTimeout] is defined in another file
    of the package.  The spec describes the transport as "a client with
    configurable timeout"; the call allocates a client with the timeout it
    is given. *)
Definition ClientWithTimeout (timeout : Z) : M pointer :=
  fun w =>
    let l := new_loc (clients w) in
    (set_clients (insert l (mkClient timeout)) w, Returned (Some l)).

(** Modelled from the spec: [newGetter] (the downloader) is defined in
    another file of the package.  "On open: issue an initial request to
    determine object length and capture response headers"; the session
    holds an "immutable configuration snapshot captured at transfer
    start", and "a transfer never mutates its config after start". *)
Definition newGetter (getURL : URL) (c : pointer) (b : pointer)
  : M (option getter * Header * error) :=
  cfg <- deref configs c ;;
  resp <- send (mkRequest "GET" getURL ∅) ;;
  match resp with
  | inl err => ret (None, ∅, Some err)
  | inr r => ret (Some (mkGetter getURL cfg b (length (Body r))), RespHeader r, None)
  end.

(** Modelled from the spec: [newPutter] (the uploader) is defined in
    another file of the package.  "On open: initiate a multipart upload,
    obtaining an upload identifier from the service"; the caller's headers
    are those "to attach to the created object", and the source documents
    [PutWriter] with "Each header in h is added to the HTTP request
    header". *)
Definition newPutter (putURL : URL) (h : Header) (c : pointer) (b : pointer)
  : M (option putter * error) :=
  cfg <- deref configs c ;;
  resp <- send (mkRequest "POST" putURL h) ;;
  match resp with
  | inl err => ret (None, Some err)
  | inr r => ret (Some (mkPutter putURL h cfg b (Body r)), None)
  end.

(** ** The facade *)

(** [func New(domain string, keys Keys) *S3] *)
Definition New (domain : string) (keys : Keys) : M loc :=
  fun w =>
    let domain :=
      if String.eqb domain EmptyString then DefaultDomain w else domain in
    let l := new_loc (s3s w) in
    (set_s3s (insert l (mkS3 domain keys)) w, Returned l).

(** [func (s3 *S3) Bucket(name string) *Bucket] *)
Definition S3_Bucket (s3 : pointer) (name : string) : M loc :=
  fun w =>
    let l := new_loc (buckets w) in
    (set_buckets (insert l (mkBucket s3 name)) w, Returned l).

(** [fmt.Sprintf("%s://%s.%s/%s", scheme, name, domain, path)] *)
Definition Sprintf_url (scheme name domain path : string) : string :=
  scheme +:+ "://" +:+ name +:+ "." +:+ domain +:+ "/" +:+ path.

(** [c.Client = cl] *)
Definition set_Client (cl : pointer) (cfg : Config) : Config :=
  mkConfig cl (Concurrency cfg) (PartSize cfg) (NTry cfg) (Md5Check cfg) (Scheme cfg).

Definition assign_Client (c : pointer) (cl : pointer) : M unit :=
  match c with
  | Some l => modify (set_configs (alter (set_Client cl) l))
  | None => panic NilDereference
  end.

Section Facade.

Variable parse_rest : string -> string -> string -> string -> error_value + URL.

(** [func (b *Bucket) Url(path string, c *Config) url.URL] *)
Definition Url (b : pointer) (path : string) (c : pointer) : M URL :=
  cfg <- deref configs c ;;
  bk <- deref buckets b ;;
  s3 <- deref s3s (Bucket_S3 bk) ;;
  match url_Parse parse_rest (Sprintf_url (Scheme cfg) (Name bk) (Domain s3) path) with
  | inl err => panic (PanicError err)
  | inr url_ => ret url_
  end.

(** The first two statements of both entry points:
    [if c == nil { c = DefaultConfig }] and
    [if c.Client == nil { c.Client = ClientWithTimeout(clientTimeout) }];
    the result is the pointer [c] holds after them. *)
Definition or_default (c : pointer) : pointer :=
  match c with
  | None => Some DefaultConfig
  | Some _ => c
  end.

Definition ensure_Client (c : pointer) : M unit :=
  cfg <- deref configs c ;;
  match Client cfg with
  | None =>
      cl <- ClientWithTimeout clientTimeout ;;
      assign_Client c cl
  | Some _ => ret tt
  end.

(** [func (b *Bucket) GetReader(path string, c *Config)
       (r io.ReadCloser, h http.Header, err error)] *)
Definition GetReader (b : pointer) (path : string) (c : pointer)
  : M (option getter * Header * error) :=
  let c := or_default c in
  _ <- ensure_Client c ;;
  u <- Url b path c ;;
  newGetter u c b.

(** [func (b *Bucket) PutWriter(path string, h http.Header, c *Config)
       (w io.WriteCloser, err error)] *)
Definition PutWriter (b : pointer) (path : string) (h : Header) (c : pointer)
  : M (option putter * error) :=
  let c := or_default c in
  _ <- ensure_Client c ;;
  u <- Url b path c ;;
  newPutter u h c b.

End Facade.

(** The promoted fields of the embedded [*S3]: [b.Domain] and [b.Keys]
    read through the bucket's account pointer. *)
Definition Bucket_Domain (b : pointer) : M string :=
  bk <- deref buckets b ;;
  s3 <- deref s3s (Bucket_S3 bk) ;;
  ret (Domain s3).

Definition Bucket_Keys (b : pointer) : M Keys :=
  bk <- deref buckets b ;;
  s3 <- deref s3s (Bucket_S3 bk) ;;
  ret (S3_Keys s3).

(** Sequences of calls of the two entry points. *)
Inductive call :=
| CallGetReader (b : pointer) (path : string) (c : pointer)
| CallPutWriter (b : pointer) (path : string) (h : Header) (c : pointer).

Section Calls.

Variable parse_rest : string -> string -> string -> string -> error_value + URL.

Definition run_call (w : World) (k : call) : World :=
  match k with
  | CallGetReader b path c => exec (GetReader parse_rest b path c) w
  | CallPutWriter b path h c => exec (PutWriter parse_rest b path h c) w
  end.

Definition run_calls (ks : list call) (w : World) : World :=
  fold_left run_call ks w.

End Calls.

(** ** The download stream *)

Module Download.

(** Modelled from the spec: the downloader (getter.go) is not among the
    sources.  "Partition [0, length) into parts of partSize (last part may
    be shorter)"; "as each part's bytes arrive they are buffered (not yet
    delivered) until the part's index equals the stream's next expected
    index; then all contiguous ready parts starting at that index are
    delivered to the reader's output in order and evicted from the
    buffer". *)
Record reorder := mkReorder {
  next : nat;                        (* next expected index *)
  buffer : gmap nat (list byte);     (* parts that arrived early *)
  delivered : list byte              (* what the caller has read *)
}.

(** Modelled from the spec: "Partition [0, length) into parts of partSize
    (last part may be shorter)".  Each part of a positive size shortens
    what is left, so the length of the object is fuel enough. *)
Fixpoint chunks (fuel ps : nat) (l : list byte) : list (list byte) :=
  match fuel with
  | O => []
  | S fuel' =>
      match l with
      | [] => []
      | _ :: _ => take ps l :: chunks fuel' ps (drop ps l)
      end
  end.

(** Modelled from the spec: the parts of an object for a part size. *)
Definition object_parts (ps : nat) (body : list byte) : list (list byte) :=
  chunks (length body) ps body.

(** Modelled from the spec: "all contiguous ready parts starting at that
    index are delivered to the reader's output in order and evicted from
    the buffer".  Each step evicts one entry, so the size of the buffer is
    fuel enough. *)
Fixpoint drain (fuel : nat) (r : reorder) : reorder :=
  match fuel with
  | O => r
  | S fuel' =>
      match buffer r !! next r with
      | Some p =>
          drain fuel' (mkReorder (S (next r)) (delete (next r) (buffer r))
                                 (delivered r ++ p))
      | None => r
      end
  end.

(** Modelled from the spec: "as each part's bytes arrive they are
    buffered", and what is ready is delivered. *)
Definition arrive (i : nat) (p : list byte) (r : reorder) : reorder :=
  let b := <[i := p]> (buffer r) in
  drain (size b) (mkReorder (next r) b (delivered r)).

(** Modelled from the spec: the response for part [i] arrives (an index
    that is no part of the object is ignored). *)
Definition receive (parts : list (list byte)) (r : reorder) (i : nat) : reorder :=
  match parts !! i with
  | Some p => arrive i p r
  | None => r
  end.

(** Modelled from the spec: a stream nothing has arrived on (part indices
    are "contiguous starting at 0"). *)
Definition start : reorder := mkReorder 0 ∅ [].

(** Modelled from the spec: the stream after the responses arrived in the
    order [arrivals], "for any interleaving of underlying response arrival
    times". *)
Definition download (parts : list (list byte)) (arrivals : list nat) : reorder :=
  fold_left (receive parts) arrivals start.

(** Modelled from the spec: the parts of an object [body] for the reader
    [g], which cuts it by the PartSize of its configuration. *)
Definition getter_parts (g : getter) (body : list byte) : list (list byte) :=
  object_parts (Z.to_nat (PartSize (g_c g))) body.

(** Modelled from the spec: everything the caller reads from the reader
    [g] of an object [body] whose responses arrive in the order
    [arrivals]. *)
Definition read_all (g : getter) (body : list byte) (arrivals : list nat) : list byte :=
  delivered (download (getter_parts g body) arrivals).

(** What holds of the stream once the responses listed in [seen] were
    received (part of it also holds between the steps of [drain]). *)
Record buffered (parts : list (list byte)) (seen : list nat) (r : reorder) : Prop := {
  buffered_parts : forall j p, buffer r !! j = Some p -> parts !! j = Some p;
  buffered_delivered : delivered r = concat (take (next r) parts);
  buffered_next : next r <= length parts;
  buffered_seen : forall j, j ∈ seen -> j < length parts ->
                            j < next r \/ is_Some (buffer r !! j)
}.

End Download.

(** ** Vocabulary of the statements *)

(** A computation is [pure] when it leaves the world as it found it, and
    [framed] when it leaves the four stores as it found them (it may talk
    to the service). *)
Definition pure {A} (m : M A) : Prop := forall w, exec m w = w.

Definition stores (w : World) :=
  (s3s w, buckets w, configs w, clients w).

Definition framed {A} (m : M A) : Prop := forall w, stores (exec m w) = stores w.

(** The world after [c.Client = ClientWithTimeout(clientTimeout)]. *)
Definition install (l : loc) (w : World) : World :=
  set_configs (alter (set_Client (Some (new_loc (clients w)))) l)
    (set_clients (insert (new_loc (clients w)) (mkClient clientTimeout)) w).

(** The client the configuration [cfg] has once [ensure_Client] ran in
    [w], and the world [ensure_Client] leaves. *)
Definition client_after (cfg : Config) (w : World) : pointer :=
  match Client cfg with
  | Some p => Some p
  | None => Some (new_loc (clients w))
  end.

Definition world_after (l : loc) (cfg : Config) (w : World) : World :=
  match Client cfg with
  | Some _ => w
  | None => install l w
  end.

(** The transfer an entry point created, if it created one. *)
Definition getter_of (o : outcome (option getter * Header * error)) : option getter :=
  match o with
  | Returned (g, _, _) => g
  | Panicked _ => None
  end.

Definition putter_of (o : outcome (option putter * error)) : option putter :=
  match o with
  | Returned (t, _) => t
  | Panicked _ => None
  end.

(** The configuration argument of a call. *)
Definition call_Config (k : call) : pointer :=
  match k with
  | CallGetReader _ _ c => c
  | CallPutWriter _ _ _ c => c
  end.

(** [New(d, k).Bucket(n).Url(path, c)] *)
Definition account_bucket_Url
    (parse_rest : string -> string -> string -> string -> error_value + URL)
    (d : string) (k : Keys) (n path : string) (c : pointer) : M URL :=
  a <- New d k ;;
  b <- S3_Bucket (Some a) n ;;
  Url parse_rest (Some b) path c.

(** Two accounts, one after the other. *)
Definition two_accounts (d1 : string) (k1 : Keys) (d2 : string) (k2 : Keys)
  : M (loc * loc) :=
  a1 <- New d1 k1 ;;
  a2 <- New d2 k2 ;;
  ret (a1, a2).

(** Whether [s] is made of letters only. *)
Fixpoint all_letters (s : string) : bool :=
  match s with
  | EmptyString => true
  | String c s' => is_letter c && all_letters s'
  end.

(** Whether the character [c] occurs in [s]. *)
Fixpoint occurs (c : ascii) (s : string) : bool :=
  match s with
  | EmptyString => false
  | String a s' => Ascii.eqb a c || occurs c s'
  end.

(** ** Scenarios the statements below are run on *)

(** A service that answers every request with an empty response. *)
Definition empty_service (r : Request) : error_value + Response :=
  inr (mkResponse ∅ []).

(** An account on the default domain with one bucket (at address 1). *)
Definition setup : M loc :=
  s <- New EmptyString (mkKeys "AKID" "SECRET") ;;
  S3_Bucket (Some s) "bkt".

Definition world1 : World := exec setup (init_World empty_service).

(** [world1] with a caller's configuration at address 2: http, no client. *)
Definition caller_Config : Config :=
  {| Client := None; Concurrency := 4; PartSize := 5 * mb; NTry := 3;
     Md5Check := false; Scheme := "http" |}.

Definition world2 : World :=
  set_configs (insert 2%positive caller_Config) world1.

(** A service holding a five-byte object, and [world1] over it with a
    caller's configuration at address 2 that asks for two-byte parts. *)
Definition five_bytes : list byte := [x01; x02; x03; x04; x05].

Definition five_byte_service (r : Request) : error_value + Response :=
  inr (mkResponse ∅ five_bytes).

Definition small_parts_Config : Config :=
  {| Client := None; Concurrency := 3; PartSize := 2; NTry := 1;
     Md5Check := false; Scheme := "https" |}.

Definition world4 : World :=
  set_configs (insert 2%positive small_parts_Config)
    (exec setup (init_World five_byte_service)).

Definition small_parts_getter : getter :=
  {| g_url := mkURL "https" EmptyString None "bkt.s3.amazonaws.com" "/key"
                    EmptyString EmptyString;
     g_c := set_Client (Some 1%positive) small_parts_Config;
     g_b := Some 1%positive;
     g_length := 5 |}.

(** [world1] with a configuration at address 2 whose Scheme is empty. *)
Definition no_scheme_Config : Config :=
  {| Client := None; Concurrency := 10; PartSize := 20 * mb; NTry := 10;
     Md5Check := true; Scheme := EmptyString |}.

Definition world3 : World :=
  set_configs (insert 2%positive no_scheme_Config) world1.

(** [world1] after a caller wrote [DefaultDomain = "objects.example.org"]. *)
Definition world5 : World := set_DefaultDomain "objects.example.org" world1.

(** Headers a caller asks server-side encryption with. *)
Definition sse_header : Header :=
  {[ "x-amz-server-side-encryption" := ["AES256"] ]}.

(** * Properties *)

(** ** Running the monad *)

Lemma exec_bind {A B} (m : M A) (k : A -> M B) w :
  exec (bind m k) w =
  match eval m w with
  | Returned a => exec (k a) (exec m w)
  | Panicked _ => exec m w
  end.
Proof. rw /exec /eval /bind. by destruct (m w) as [w' [a|p]]. Qed.

Lemma eval_bind {A B} (m : M A) (k : A -> M B) w :
  eval (bind m k) w =
  match eval m w with
  | Returned a => eval (k a) (exec m w)
  | Panicked p => Panicked p
  end.
Proof. rw /exec /eval /bind. by destruct (m w) as [w' [a|p]]. Qed.

Lemma run_eta {A} (m : M A) w : m w = (exec m w, eval m w).
Proof. rw /exec /eval. by destruct (m w). Qed.

Create HintDb frame discriminated.

Lemma pure_ret {A} (a : A) : pure (ret a).
Proof. done. Qed.

Lemma pure_panic {A} p : pure (@panic A p).
Proof. done. Qed.

Lemma pure_deref {V} (store : World -> gmap loc V) p : pure (deref store p).
Proof. intros w. rw /exec /deref. by destruct (p ≫= _). Qed.

Lemma pure_bind {A B} (m : M A) (k : A -> M B) :
  pure m -> (forall a, pure (k a)) -> pure (bind m k).
Proof.
  intros Hm Hk w. rw exec_bind. destruct (eval m w); rw ?Hk Hm //.
Qed.

Lemma pure_framed {A} (m : M A) : pure m -> framed m.
Proof. intros Hm w. by rw Hm. Qed.

Lemma framed_bind {A B} (m : M A) (k : A -> M B) :
  framed m -> (forall a, framed (k a)) -> framed (bind m k).
Proof.
  intros Hm Hk w. rw exec_bind. destruct (eval m w); rw ?Hk Hm //.
Qed.

Lemma framed_send r : framed (send r).
Proof. done. Qed.

#[export] Hint Resolve pure_ret pure_panic pure_deref pure_bind : frame.
#[export] Hint Resolve framed_bind framed_send pure_framed : frame.

Lemma pure_Url parse_rest b path c : pure (Url parse_rest b path c).
Proof.
  rw /Url. repeat (apply pure_bind; [auto with frame|intros ?]).
  destruct (url_Parse _ _); auto with frame.
Qed.

Lemma framed_newGetter u c b : framed (newGetter u c b).
Proof.
  rw /newGetter. repeat (apply framed_bind; [auto with frame|intros ?]).
  match goal with |- framed (match ?x with _ => _ end) => destruct x end;
    auto with frame.
Qed.

Lemma framed_newPutter u h c b : framed (newPutter u h c b).
Proof.
  rw /newPutter. repeat (apply framed_bind; [auto with frame|intros ?]).
  match goal with |- framed (match ?x with _ => _ end) => destruct x end;
    auto with frame.
Qed.

#[export] Hint Resolve pure_Url framed_newGetter framed_newPutter : frame.

(** After [ensure_Client] both entry points only read the stores. *)
Lemma stores_bind_framed {A B} (m : M A) (k : A -> M B) w :
  (forall a, framed (k a)) -> stores (exec (bind m k) w) = stores (exec m w).
Proof. intros Hk. rw exec_bind. destruct (eval m w); rw ?Hk //. Qed.

Lemma stores_GetReader parse_rest b path c w :
  stores (exec (GetReader parse_rest b path c) w) =
  stores (exec (ensure_Client (or_default c)) w).
Proof.
  rw /GetReader. apply stores_bind_framed. intros _.
  apply framed_bind; auto with frame.
Qed.

Lemma stores_PutWriter parse_rest b path h c w :
  stores (exec (PutWriter parse_rest b path h c) w) =
  stores (exec (ensure_Client (or_default c)) w).
Proof.
  rw /PutWriter. apply stores_bind_framed. intros _.
  apply framed_bind; auto with frame.
Qed.

(** ** What [ensure_Client] does to the world *)

Lemma ensure_Client_nil l w cfg :
  configs w !! l = Some cfg -> Client cfg = None ->
  ensure_Client (Some l) w = (install l w, Returned tt).
Proof.
  intros Hl Hc. rw /ensure_Client /bind /deref /= Hl Hc. done.
Qed.

Lemma ensure_Client_set l w cfg :
  configs w !! l = Some cfg -> is_Some (Client cfg) ->
  ensure_Client (Some l) w = (w, Returned tt).
Proof.
  intros Hl [p Hp]. rw /ensure_Client /bind /deref /= Hl Hp. done.
Qed.

Lemma ensure_Client_unallocated l w :
  configs w !! l = None ->
  ensure_Client (Some l) w = (w, Panicked NilDereference).
Proof.
  intros Hl. rw /ensure_Client /bind /deref /= Hl. done.
Qed.

Lemma set_Client_same cfg : set_Client (Client cfg) cfg = cfg.
Proof. by destruct cfg. Qed.

Lemma new_loc_fresh {V} (m : gmap loc V) : m !! new_loc m = None.
Proof. apply not_elem_of_dom, is_fresh. Qed.

(** ** The account and bucket constructors *)

(** C3: the default configuration holds exactly the documented defaults:
    Concurrency 10, PartSize 20 MiB (20 * 2^20 bytes), NTry 10, Md5Check
    true and Scheme "https" (and no client). *)
Theorem DefaultConfig_documented_defaults srv :
  configs (init_World srv) !! DefaultConfig =
    Some {| Client := None; Concurrency := 10; PartSize := 20 * 2 ^ 20;
            NTry := 10; Md5Check := true; Scheme := "https" |}.
Proof. rw /init_World /=. by rw lookup_singleton_eq. Qed.

Lemma New_run d k w :
  New d k w =
  (set_s3s (insert (new_loc (s3s w))
              (mkS3 (if String.eqb d EmptyString then DefaultDomain w else d) k)) w,
   Returned (new_loc (s3s w))).
Proof. done. Qed.

(** No function of the file assigns the package variable. *)
Lemma DefaultDomain_bind {A B} (m : M A) (k : A -> M B) :
  (forall w, DefaultDomain (exec m w) = DefaultDomain w) ->
  (forall a w, DefaultDomain (exec (k a) w) = DefaultDomain w) ->
  forall w, DefaultDomain (exec (bind m k) w) = DefaultDomain w.
Proof.
  intros Hm Hk w. rw exec_bind. destruct (eval m w); rw ?Hk Hm //.
Qed.

Lemma DefaultDomain_ensure_Client c w :
  DefaultDomain (exec (ensure_Client c) w) = DefaultDomain w.
Proof.
  rw /exec /ensure_Client /bind /deref.
  destruct (c ≫= _) as [cfg|]; last done.
  destruct (Client cfg); first done. by destruct c.
Qed.

Lemma DefaultDomain_newGetter u c b w :
  DefaultDomain (exec (newGetter u c b) w) = DefaultDomain w.
Proof.
  rw /exec /newGetter /bind /deref /send.
  destruct (c ≫= _) as [cfg|]; last done. cbn [fst snd].
  by destruct (service w _).
Qed.

Lemma DefaultDomain_newPutter u h c b w :
  DefaultDomain (exec (newPutter u h c b) w) = DefaultDomain w.
Proof.
  rw /exec /newPutter /bind /deref /send.
  destruct (c ≫= _) as [cfg|]; last done. cbn [fst snd].
  by destruct (service w _).
Qed.

Lemma DefaultDomain_run_call parse_rest k w :
  DefaultDomain (run_call parse_rest w k) = DefaultDomain w.
Proof.
  destruct k as [b path c|b path h c]; rw /run_call.
  - rw /GetReader. apply DefaultDomain_bind.
    + apply DefaultDomain_ensure_Client.
    + intros _ w1. apply DefaultDomain_bind.
      * intros w2. by rw pure_Url.
      * intros u w2. apply DefaultDomain_newGetter.
  - rw /PutWriter. apply DefaultDomain_bind.
    + apply DefaultDomain_ensure_Client.
    + intros _ w1. apply DefaultDomain_bind.
      * intros w2. by rw pure_Url.
      * intros u w2. apply DefaultDomain_newPutter.
Qed.

Lemma DefaultDomain_run_calls parse_rest ks w :
  DefaultDomain (run_calls parse_rest ks w) = DefaultDomain w.
Proof.
  revert w. induction ks as [|k ks IH]; intros w; first done.
  by rw /run_calls /= -/(run_calls parse_rest ks _) IH DefaultDomain_run_call.
Qed.

(** C8 (as amended): [New] with an empty domain and keys [k] yields an
    account whose Domain is the value the package variable [DefaultDomain]
    has at the call, [New(d, k)] with a non-empty [d] an account on [d],
    and in both cases the account's keys are [k].  The variable holds
    "s3.amazonaws.com" when the package is initialised, and neither [New]
    nor [Bucket] nor a sequence of [GetReader] and [PutWriter] calls
    changes it. *)
Theorem New_domain_and_keys (k : Keys) (w : World) :
  (exists l, eval (New EmptyString k) w = Returned l /\
             s3s (exec (New EmptyString k) w) !! l =
               Some {| Domain := DefaultDomain w; S3_Keys := k |}) /\
  (forall d, d <> EmptyString ->
     exists l, eval (New d k) w = Returned l /\
               s3s (exec (New d k) w) !! l = Some {| Domain := d; S3_Keys := k |}) /\
  (forall srv, DefaultDomain (init_World srv) = "s3.amazonaws.com") /\
  (forall d, DefaultDomain (exec (New d k) w) = DefaultDomain w) /\
  (forall s3 n, DefaultDomain (exec (S3_Bucket s3 n) w) = DefaultDomain w) /\
  (forall parse_rest ks, DefaultDomain (run_calls parse_rest ks w) = DefaultDomain w).
Proof.
  split_and!.
  - exists (new_loc (s3s w)). rw /eval /exec New_run /=. split; first done.
    by rw lookup_insert_eq.
  - intros d Hd. exists (new_loc (s3s w)). rw /eval /exec New_run /=.
    split; first done. rw lookup_insert_eq.
    destruct (String.eqb_spec d EmptyString); by [|].
  - done.
  - done.
  - done.
  - intros parse_rest ks. apply DefaultDomain_run_calls.
Qed.

Lemma New_domain_and_keys_witness :
  "objects.example.org" <> EmptyString /\
  exists l, eval (New "objects.example.org" (mkKeys "AKID" "SECRET")) world1 = Returned l /\
            s3s (exec (New "objects.example.org" (mkKeys "AKID" "SECRET")) world1) !! l =
              Some {| Domain := "objects.example.org"; S3_Keys := mkKeys "AKID" "SECRET" |}.
Proof.
  split; first done.
  apply (New_domain_and_keys (mkKeys "AKID" "SECRET") world1). done.
Defined.

(** C8 as stated fails: once a caller has assigned [DefaultDomain], an
    account made with an empty domain is on the assigned domain, not on
    "s3.amazonaws.com". *)
Lemma New_reads_assigned_DefaultDomain :
  DefaultDomain world5 = "objects.example.org" /\
  eval (New EmptyString (mkKeys "AKID" "SECRET")) world5 = Returned 2%positive /\
  s3s (exec (New EmptyString (mkKeys "AKID" "SECRET")) world5) !! 2%positive =
    Some {| Domain := "objects.example.org"; S3_Keys := mkKeys "AKID" "SECRET" |} /\
  "objects.example.org" <> "s3.amazonaws.com".
Proof. split_and!; by vm_compute. Qed.

(** C6: [s3.Bucket(n)] yields a bucket named [n] that refers to the
    account [s3] itself: reading the domain or the keys through the bucket
    reads the account's, also after the account is changed; and the call
    leaves the accounts as they were. *)
Theorem Bucket_refers_to_account (s3 : pointer) (n : string) (w : World) :
  exists l,
    eval (S3_Bucket s3 n) w = Returned l /\
    buckets (exec (S3_Bucket s3 n) w) !! l = Some {| Bucket_S3 := s3; Name := n |} /\
    s3s (exec (S3_Bucket s3 n) w) = s3s w /\
    forall f,
      eval (Bucket_Domain (Some l)) (set_s3s f (exec (S3_Bucket s3 n) w)) =
        eval (a <- deref s3s s3 ;; ret (Domain a)) (set_s3s f w) /\
      eval (Bucket_Keys (Some l)) (set_s3s f (exec (S3_Bucket s3 n) w)) =
        eval (a <- deref s3s s3 ;; ret (S3_Keys a)) (set_s3s f w).
Proof.
  exists (new_loc (buckets w)).
  rw /eval /exec /S3_Bucket /=. rw lookup_insert_eq. do 3 (split; first done).
  intros f. rw /Bucket_Domain /Bucket_Keys /bind /deref /=. rw lookup_insert_eq /=.
  split; by destruct (s3 ≫= _).
Qed.

(** ** The entry points, step by step *)

Lemma ensure_Client_run l cfg w :
  configs w !! l = Some cfg ->
  ensure_Client (Some l) w = (world_after l cfg w, Returned tt).
Proof.
  intros Hl. rw /world_after. destruct (Client cfg) as [p|] eqn:Hp.
  - by apply (ensure_Client_set l w cfg).
  - by apply (ensure_Client_nil l w cfg).
Qed.

Lemma configs_world_after l cfg w :
  configs w !! l = Some cfg ->
  configs (world_after l cfg w) !! l = Some (set_Client (client_after cfg w) cfg).
Proof.
  intros Hl. rw /world_after /client_after. destruct (Client cfg) as [p|] eqn:Hp.
  - by rw -Hp set_Client_same.
  - rw /install /=. by rw lookup_alter_eq Hl.
Qed.

Lemma configs_world_after_ne l l' cfg w :
  l <> l' -> configs (world_after l cfg w) !! l' = configs w !! l'.
Proof.
  intros Hne. rw /world_after. destruct (Client cfg); first done.
  rw /install /=. by rw lookup_alter_ne.
Qed.

Lemma newGetter_run u l b w cfg :
  configs w !! l = Some cfg ->
  newGetter u (Some l) b w =
  (set_sent (fun s => (s ++ [mkRequest "GET" u ∅])%list) w,
   Returned
     match service w (mkRequest "GET" u ∅) with
     | inl err => (None, ∅, Some err)
     | inr r => (Some (mkGetter u cfg b (length (Body r))), RespHeader r, None)
     end).
Proof.
  intros Hl. rw /newGetter /bind /deref /send /= Hl.
  by destruct (service w _).
Qed.

Lemma newPutter_run u h l b w cfg :
  configs w !! l = Some cfg ->
  newPutter u h (Some l) b w =
  (set_sent (fun s => (s ++ [mkRequest "POST" u h])%list) w,
   Returned
     match service w (mkRequest "POST" u h) with
     | inl err => (None, Some err)
     | inr r => (Some (mkPutter u h cfg b (Body r)), None)
     end).
Proof.
  intros Hl. rw /newPutter /bind /deref /send /= Hl.
  by destruct (service w _).
Qed.

Lemma GetReader_run parse_rest b path c l cfg w :
  or_default c = Some l -> configs w !! l = Some cfg ->
  GetReader parse_rest b path c w =
  match eval (Url parse_rest b path (Some l)) (world_after l cfg w) with
  | Returned u => newGetter u (Some l) b (world_after l cfg w)
  | Panicked p => (world_after l cfg w, Panicked p)
  end.
Proof.
  intros Hc Hl. rw /GetReader Hc. rw {1}/bind (ensure_Client_run l cfg) //.
  rw {1}/bind run_eta pure_Url. by destruct (eval _ _).
Qed.

Lemma PutWriter_run parse_rest b path h c l cfg w :
  or_default c = Some l -> configs w !! l = Some cfg ->
  PutWriter parse_rest b path h c w =
  match eval (Url parse_rest b path (Some l)) (world_after l cfg w) with
  | Returned u => newPutter u h (Some l) b (world_after l cfg w)
  | Panicked p => (world_after l cfg w, Panicked p)
  end.
Proof.
  intros Hc Hl. rw /PutWriter Hc. rw {1}/bind (ensure_Client_run l cfg) //.
  rw {1}/bind run_eta pure_Url. by destruct (eval _ _).
Qed.

Lemma or_default_is_Some c : exists l, or_default c = Some l.
Proof. destruct c; eauto. Qed.

(** The stores after either entry point. *)
Lemma stores_ensure_Client c l cfg w :
  or_default c = Some l -> configs w !! l = Some cfg ->
  stores (exec (ensure_Client (or_default c)) w) = stores (world_after l cfg w).
Proof. intros -> Hl. by rw /exec (ensure_Client_run l cfg). Qed.

Lemma stores_ensure_Client_unallocated c l w :
  or_default c = Some l -> configs w !! l = None ->
  stores (exec (ensure_Client (or_default c)) w) = stores w.
Proof. intros -> Hl. by rw /exec ensure_Client_unallocated. Qed.

Lemma stores_configs w w' : stores w = stores w' -> configs w = configs w'.
Proof. by intros [= _ _ ? _]. Qed.

Lemma stores_clients w w' : stores w = stores w' -> clients w = clients w'.
Proof. by intros [= _ _ _ ?]. Qed.

(** [Url] reads the Scheme of the configuration only: the client that
    [ensure_Client] installs does not change its outcome. *)
Lemma eval_Url_world_after parse_rest b path l cfg w :
  configs w !! l = Some cfg ->
  eval (Url parse_rest b path (Some l)) (world_after l cfg w) =
  eval (Url parse_rest b path (Some l)) w.
Proof.
  intros Hl. rw /world_after. destruct (Client cfg); first done.
  rw /eval /Url /bind /deref /install /=. rw lookup_alter_eq Hl /=.
  destruct (b ≫= _) as [bk|]; last done.
  destruct (Bucket_S3 bk ≫= _) as [a|]; last done.
  by destruct (url_Parse _ _).
Qed.

Lemma GetReader_Url_panics parse_rest b path c l cfg p w :
  or_default c = Some l -> configs w !! l = Some cfg ->
  eval (Url parse_rest b path (Some l)) w = Panicked p ->
  GetReader parse_rest b path c w = (world_after l cfg w, Panicked p).
Proof.
  intros Hc Hl Hp. rw (GetReader_run parse_rest b path c l cfg) //.
  by rw (eval_Url_world_after parse_rest b path l cfg w Hl) Hp.
Qed.

Lemma PutWriter_Url_panics parse_rest b path h c l cfg p w :
  or_default c = Some l -> configs w !! l = Some cfg ->
  eval (Url parse_rest b path (Some l)) w = Panicked p ->
  PutWriter parse_rest b path h c w = (world_after l cfg w, Panicked p).
Proof.
  intros Hc Hl Hp. rw (PutWriter_run parse_rest b path h c l cfg) //.
  by rw (eval_Url_world_after parse_rest b path l cfg w Hl) Hp.
Qed.

Lemma PutWriter_Url_returns parse_rest b path h c l cfg u w :
  or_default c = Some l -> configs w !! l = Some cfg ->
  eval (Url parse_rest b path (Some l)) w = Returned u ->
  PutWriter parse_rest b path h c w = newPutter u h (Some l) b (world_after l cfg w).
Proof.
  intros Hc Hl Hu. rw (PutWriter_run parse_rest b path h c l cfg) //.
  by rw (eval_Url_world_after parse_rest b path l cfg w Hl) Hu.
Qed.

Lemma world_after_service l cfg w : service (world_after l cfg w) = service w.
Proof. rw /world_after. by destruct (Client cfg). Qed.

Lemma world_after_sent l cfg w : sent (world_after l cfg w) = sent w.
Proof. rw /world_after. by destruct (Client cfg). Qed.

Lemma getter_of_GetReader parse_rest b path c l cfg w g :
  or_default c = Some l -> configs w !! l = Some cfg ->
  getter_of (eval (GetReader parse_rest b path c) w) = Some g ->
  g_c g = set_Client (client_after cfg w) cfg /\ g_b g = b /\
  eval (Url parse_rest b path (Some l)) (world_after l cfg w) = Returned (g_url g).
Proof.
  intros Hc Hl. rw /eval (GetReader_run parse_rest b path c l cfg) //.
  rw -/(eval (Url parse_rest b path (Some l)) (world_after l cfg w)).
  destruct (eval (Url _ _ _ _) _) as [u|p]; last done.
  rw (newGetter_run u l b _ (set_Client (client_after cfg w) cfg));
    first by apply configs_world_after.
  cbn [snd getter_of]. destruct (service _ _); last by intros [= <-].
  done.
Qed.

Lemma putter_of_PutWriter parse_rest b path h c l cfg w t :
  or_default c = Some l -> configs w !! l = Some cfg ->
  putter_of (eval (PutWriter parse_rest b path h c) w) = Some t ->
  p_c t = set_Client (client_after cfg w) cfg /\ p_b t = b /\ p_header t = h /\
  eval (Url parse_rest b path (Some l)) (world_after l cfg w) = Returned (p_url t).
Proof.
  intros Hc Hl. rw /eval (PutWriter_run parse_rest b path h c l cfg) //.
  rw -/(eval (Url parse_rest b path (Some l)) (world_after l cfg w)).
  destruct (eval (Url _ _ _ _) _) as [u|p]; last done.
  rw (newPutter_run u h l b _ (set_Client (client_after cfg w) cfg));
    first by apply configs_world_after.
  cbn [snd putter_of]. destruct (service _ _); last by intros [= <-].
  done.
Qed.

(** What a call does to the configuration at any address: it may only
    give it a client, and only if it had none. *)
Lemma configs_ensure_Client_at c w l cfg :
  configs w !! l = Some cfg ->
  exists cl,
    configs (exec (ensure_Client (or_default c)) w) !! l = Some (set_Client cl cfg) /\
    (is_Some (Client cfg) -> cl = Client cfg).
Proof.
  intros Hl. destruct (or_default_is_Some c) as [lc Hc].
  destruct (configs w !! lc) as [cfgc|] eqn:Hlc.
  - rw (stores_configs _ _ (stores_ensure_Client c lc cfgc w Hc Hlc)).
    destruct (decide (lc = l)) as [->|Hne].
    + assert (cfgc = cfg) as -> by congruence.
      exists (client_after cfg w). split; first by apply configs_world_after.
      rw /client_after. by intros [p ->].
    + exists (Client cfg). by rw configs_world_after_ne // set_Client_same.
  - rw (stores_configs _ _ (stores_ensure_Client_unallocated c lc w Hc Hlc)).
    exists (Client cfg). by rw set_Client_same.
Qed.

Lemma configs_run_call_at parse_rest k w l cfg :
  configs w !! l = Some cfg ->
  exists cl,
    configs (run_call parse_rest w k) !! l = Some (set_Client cl cfg) /\
    (is_Some (Client cfg) -> cl = Client cfg).
Proof.
  intros Hl. destruct k as [b path c|b path h c]; rw /run_call.
  - rw (stores_configs _ _ (stores_GetReader parse_rest b path c w)).
    by apply configs_ensure_Client_at.
  - rw (stores_configs _ _ (stores_PutWriter parse_rest b path h c w)).
    by apply configs_ensure_Client_at.
Qed.

Lemma set_Client_twice cl cl' cfg :
  set_Client cl (set_Client cl' cfg) = set_Client cl cfg.
Proof. done. Qed.

Lemma configs_run_calls_at parse_rest ks w l cfg :
  configs w !! l = Some cfg ->
  exists cl,
    configs (run_calls parse_rest ks w) !! l = Some (set_Client cl cfg) /\
    (is_Some (Client cfg) -> cl = Client cfg).
Proof.
  revert w cfg. induction ks as [|k ks IH]; intros w cfg Hl.
  - exists (Client cfg). by rw set_Client_same.
  - destruct (configs_run_call_at parse_rest k w l cfg Hl) as (cl1 & H1 & Hk1).
    destruct (IH _ _ H1) as (cl & H & Hk). exists cl.
    rw /run_calls /= -/(run_calls parse_rest ks _) H set_Client_twice.
    split; first done. intros Hs. rw Hk.
    + rw /= (Hk1 Hs). done.
    + by rw /= (Hk1 Hs).
Qed.

(** ** The configuration a transfer is started with *)

(** C1 (as amended): [GetReader(path, c)] and [PutWriter(path, h, c)] with
    a non-nil [c] leave Concurrency, PartSize, NTry, Md5Check and Scheme of
    [c] as they were; the Client field is left as it was when it is
    non-nil, and is assigned a newly allocated client when it is nil. *)
Theorem call_keeps_Config_up_to_nil_Client
    parse_rest (b : pointer) (path : string) (h : Header) (l : loc)
    (cfg : Config) (w : World) :
  configs w !! l = Some cfg ->
  configs (exec (GetReader parse_rest b path (Some l)) w) !! l =
    Some (set_Client (client_after cfg w) cfg) /\
  configs (exec (PutWriter parse_rest b path h (Some l)) w) !! l =
    Some (set_Client (client_after cfg w) cfg) /\
  (is_Some (Client cfg) -> set_Client (client_after cfg w) cfg = cfg) /\
  (Client cfg = None ->
   client_after cfg w = Some (new_loc (clients w)) /\
   clients w !! new_loc (clients w) = None).
Proof.
  intros Hl. split_and!.
  - rw (stores_configs _ _ (stores_GetReader parse_rest b path (Some l) w)).
    rw (stores_configs _ _ (stores_ensure_Client (Some l) l cfg w eq_refl Hl)).
    by apply configs_world_after.
  - rw (stores_configs _ _ (stores_PutWriter parse_rest b path h (Some l) w)).
    rw (stores_configs _ _ (stores_ensure_Client (Some l) l cfg w eq_refl Hl)).
    by apply configs_world_after.
  - intros [p Hp]. by rw /client_after Hp -Hp set_Client_same.
  - intros Hn. rw /client_after Hn. split; first done. apply new_loc_fresh.
Qed.

Lemma call_keeps_Config_up_to_nil_Client_witness :
  configs world2 !! 2%positive = Some caller_Config /\
  configs (exec (GetReader plain_rest (Some 1%positive) "key" (Some 2%positive)) world2)
    !! 2%positive = Some (set_Client (client_after caller_Config world2) caller_Config).
Proof.
  split; first by vm_compute.
  apply (call_keeps_Config_up_to_nil_Client plain_rest (Some 1%positive) "key" ∅
           2%positive caller_Config world2).
  by vm_compute.
Defined.

(** C1 as stated fails: a configuration without a client is changed by
    either entry point. *)
Lemma call_assigns_nil_Client :
  configs world2 !! 2%positive = Some caller_Config /\
  configs (exec (GetReader plain_rest (Some 1%positive) "key" (Some 2%positive)) world2)
    !! 2%positive = Some (set_Client (Some 1%positive) caller_Config) /\
  configs (exec (PutWriter plain_rest (Some 1%positive) "key" ∅ (Some 2%positive)) world2)
    !! 2%positive = Some (set_Client (Some 1%positive) caller_Config) /\
  set_Client (Some 1%positive) caller_Config <> caller_Config.
Proof. split_and!; [by vm_compute..|]. by intros [=]. Qed.

(** C2 (as amended): over every sequence of [GetReader] and [PutWriter]
    calls the fields of [DefaultConfig] other than Client keep their
    values, and so does Client once it is non-nil. *)
Theorem calls_keep_DefaultConfig_up_to_nil_Client
    parse_rest (ks : list call) (cfg : Config) (w : World) :
  configs w !! DefaultConfig = Some cfg ->
  exists cl,
    configs (run_calls parse_rest ks w) !! DefaultConfig = Some (set_Client cl cfg) /\
    (is_Some (Client cfg) -> cl = Client cfg).
Proof. apply configs_run_calls_at. Qed.

Lemma calls_keep_DefaultConfig_up_to_nil_Client_witness :
  configs world1 !! DefaultConfig = Some DefaultConfig_init /\
  exists cl,
    configs (run_calls plain_rest
               [CallPutWriter (Some 1%positive) "key" ∅ None;
                CallGetReader (Some 1%positive) "key" None] world1)
      !! DefaultConfig = Some (set_Client cl DefaultConfig_init) /\
    (is_Some (Client DefaultConfig_init) -> cl = Client DefaultConfig_init).
Proof.
  split; first by vm_compute.
  apply (calls_keep_DefaultConfig_up_to_nil_Client plain_rest). by vm_compute.
Defined.

(** C2 as stated fails: one call with a nil configuration changes what
    [DefaultConfig] points to, and the next transfer sees the change. *)
Lemma nil_Config_call_changes_DefaultConfig :
  configs world1 !! DefaultConfig = Some DefaultConfig_init /\
  configs (run_calls plain_rest [CallGetReader (Some 1%positive) "key" None] world1)
    !! DefaultConfig = Some (set_Client (Some 1%positive) DefaultConfig_init) /\
  set_Client (Some 1%positive) DefaultConfig_init <> DefaultConfig_init /\
  g_c <$> getter_of
      (eval (GetReader plain_rest (Some 1%positive) "other" None)
         (run_calls plain_rest [CallGetReader (Some 1%positive) "key" None] world1)) =
    Some (set_Client (Some 1%positive) DefaultConfig_init).
Proof. split_and!; [by vm_compute..| |by vm_compute]. by intros [=]. Qed.

(** C4: a nil configuration is the default one: [GetReader(path, nil)] and
    [PutWriter(path, h, nil)] are the calls with [DefaultConfig], and the
    transfer they create runs with the values [DefaultConfig] holds. *)
Theorem nil_Config_means_DefaultConfig
    parse_rest (b : pointer) (path : string) (h : Header) (cfg : Config) (w : World) :
  configs w !! DefaultConfig = Some cfg ->
  GetReader parse_rest b path None w =
    GetReader parse_rest b path (Some DefaultConfig) w /\
  PutWriter parse_rest b path h None w =
    PutWriter parse_rest b path h (Some DefaultConfig) w /\
  (forall g, getter_of (eval (GetReader parse_rest b path None) w) = Some g ->
             g_c g = set_Client (client_after cfg w) cfg) /\
  (forall t, putter_of (eval (PutWriter parse_rest b path h None) w) = Some t ->
             p_c t = set_Client (client_after cfg w) cfg).
Proof.
  intros Hl. split_and!; [done..| |].
  - intros g Hg.
    by destruct (getter_of_GetReader parse_rest b path None _ cfg w g eq_refl Hl Hg).
  - intros t Ht.
    by destruct (putter_of_PutWriter parse_rest b path h None _ cfg w t eq_refl Hl Ht).
Qed.

Lemma nil_Config_means_DefaultConfig_witness :
  configs world1 !! DefaultConfig = Some DefaultConfig_init /\
  forall g,
    getter_of (eval (GetReader plain_rest (Some 1%positive) "key" None) world1) = Some g ->
    g_c g = set_Client (client_after DefaultConfig_init world1) DefaultConfig_init.
Proof.
  split; first by vm_compute.
  apply (nil_Config_means_DefaultConfig plain_rest (Some 1%positive) "key" ∅
           DefaultConfig_init world1).
  by vm_compute.
Defined.

(** Whatever calls went before, a transfer started with a nil
    configuration runs with the documented defaults. *)
Lemma nil_Config_transfer_has_documented_defaults
    parse_rest (b : pointer) (path : string) (ks : list call) (w : World) (g : getter) :
  configs w !! DefaultConfig = Some DefaultConfig_init ->
  getter_of (eval (GetReader parse_rest b path None) (run_calls parse_rest ks w)) = Some g ->
  Concurrency (g_c g) = 10%Z /\ PartSize (g_c g) = (20 * 2 ^ 20)%Z /\
  NTry (g_c g) = 10%Z /\ Md5Check (g_c g) = true /\ Scheme (g_c g) = "https".
Proof.
  intros Hl Hg.
  destruct (configs_run_calls_at parse_rest ks w DefaultConfig _ Hl) as (cl & Hcl & _).
  destruct (getter_of_GetReader parse_rest b path None _ _ _ g eq_refl Hcl Hg) as [-> _].
  done.
Qed.

(** ** The HTTP client of a transfer *)

Lemma clients_install l w :
  clients (install l w) = <[new_loc (clients w) := mkClient clientTimeout]> (clients w).
Proof. done. Qed.

(** C10: when the configuration in effect (the caller's, or
    [DefaultConfig] for a nil argument) has no client, both entry points
    give it a newly allocated client whose timeout is five seconds, and
    the transfer is created with that client; a client the caller supplied
    stays in place, and no client is allocated. *)
Theorem nil_Client_gets_default_client
    parse_rest (b : pointer) (path : string) (h : Header) (c : pointer)
    (l : loc) (cfg : Config) (w : World) :
  or_default c = Some l ->
  configs w !! l = Some cfg ->
  (Client cfg = None ->
   exists p,
     clients w !! p = None /\
     (forall w', w' = exec (GetReader parse_rest b path c) w \/
                 w' = exec (PutWriter parse_rest b path h c) w ->
        configs w' !! l = Some (set_Client (Some p) cfg) /\
        clients w' !! p = Some {| Timeout := 5 * 1000000000 |}) /\
     (forall g, getter_of (eval (GetReader parse_rest b path c) w) = Some g ->
                Client (g_c g) = Some p) /\
     (forall t, putter_of (eval (PutWriter parse_rest b path h c) w) = Some t ->
                Client (p_c t) = Some p)) /\
  (forall p, Client cfg = Some p ->
     (forall w', w' = exec (GetReader parse_rest b path c) w \/
                 w' = exec (PutWriter parse_rest b path h c) w ->
        configs w' = configs w /\ clients w' = clients w) /\
     (forall g, getter_of (eval (GetReader parse_rest b path c) w) = Some g ->
                Client (g_c g) = Some p) /\
     (forall t, putter_of (eval (PutWriter parse_rest b path h c) w) = Some t ->
                Client (p_c t) = Some p)).
Proof.
  intros Hc Hl.
  assert (forall w', w' = exec (GetReader parse_rest b path c) w \/
                     w' = exec (PutWriter parse_rest b path h c) w ->
                     stores w' = stores (world_after l cfg w)) as Hst.
  { intros w' [->| ->].
    - by rw stores_GetReader (stores_ensure_Client c l cfg).
    - by rw stores_PutWriter (stores_ensure_Client c l cfg). }
  split.
  - intros Hn. exists (new_loc (clients w)). split_and!.
    + apply new_loc_fresh.
    + intros w' Hw'. specialize (Hst w' Hw').
      rw (stores_configs _ _ Hst) (stores_clients _ _ Hst).
      rw configs_world_after // /client_after /world_after Hn clients_install.
      by rw lookup_insert_eq.
    + intros g Hg.
      destruct (getter_of_GetReader parse_rest b path c l cfg w g Hc Hl Hg) as [-> _].
      by rw /client_after Hn.
    + intros t Ht.
      destruct (putter_of_PutWriter parse_rest b path h c l cfg w t Hc Hl Ht) as [-> _].
      by rw /client_after Hn.
  - intros p Hp. split_and!.
    + intros w' Hw'. specialize (Hst w' Hw').
      rw (stores_configs _ _ Hst) (stores_clients _ _ Hst).
      by rw /world_after Hp.
    + intros g Hg.
      destruct (getter_of_GetReader parse_rest b path c l cfg w g Hc Hl Hg) as [-> _].
      by rw /client_after Hp.
    + intros t Ht.
      destruct (putter_of_PutWriter parse_rest b path h c l cfg w t Hc Hl Ht) as [-> _].
      by rw /client_after Hp.
Qed.

Lemma nil_Client_gets_default_client_witness :
  or_default None = Some DefaultConfig /\
  configs world1 !! DefaultConfig = Some DefaultConfig_init /\
  Client DefaultConfig_init = None /\
  exists p,
    clients world1 !! p = None /\
    (forall w', w' = exec (GetReader plain_rest (Some 1%positive) "key" None) world1 \/
                w' = exec (PutWriter plain_rest (Some 1%positive) "key" ∅ None) world1 ->
       configs w' !! DefaultConfig = Some (set_Client (Some p) DefaultConfig_init) /\
       clients w' !! p = Some {| Timeout := 5 * 1000000000 |}) /\
    (forall g, getter_of (eval (GetReader plain_rest (Some 1%positive) "key" None) world1)
                 = Some g -> Client (g_c g) = Some p) /\
    (forall t, putter_of (eval (PutWriter plain_rest (Some 1%positive) "key" ∅ None) world1)
                 = Some t -> Client (p_c t) = Some p).
Proof.
  split_and!; [done|by vm_compute|done|].
  apply (nil_Client_gets_default_client plain_rest (Some 1%positive) "key" ∅ None
           DefaultConfig DefaultConfig_init world1); [done|by vm_compute|done].
Defined.

(** ** The caller's headers *)

(** C7: [PutWriter(path, h, c)] hands the headers [h] as they are to
    [newPutter], with the URL of the path: where [Url] returns [u], the
    call is [newPutter(u, h, c, b)] run after the client is in place; it
    sends the request that opens the upload to [u] with exactly the
    headers [h], and the writer it creates when the service answers is
    at [u] and holds [h]. *)
Theorem PutWriter_passes_headers
    parse_rest (b : pointer) (path : string) (h : Header) (c : pointer)
    (l : loc) (cfg : Config) (u : URL) (w : World) :
  or_default c = Some l ->
  configs w !! l = Some cfg ->
  eval (Url parse_rest b path (Some l)) w = Returned u ->
  PutWriter parse_rest b path h c w =
    newPutter u h (Some l) b (world_after l cfg w) /\
  sent (exec (PutWriter parse_rest b path h c) w) =
    (sent w ++ [{| Method := "POST"; ReqURL := u; ReqHeader := h |}])%list /\
  (forall err,
     service w {| Method := "POST"; ReqURL := u; ReqHeader := h |} = inl err ->
     eval (PutWriter parse_rest b path h c) w = Returned (None, Some err)) /\
  (forall r,
     service w {| Method := "POST"; ReqURL := u; ReqHeader := h |} = inr r ->
     exists t,
       eval (PutWriter parse_rest b path h c) w = Returned (Some t, None) /\
       p_header t = h /\ p_url t = u).
Proof.
  intros Hc Hl Hu.
  pose proof (PutWriter_Url_returns parse_rest b path h c l cfg u w Hc Hl Hu) as Hrun.
  split; first done.
  rw /eval /exec Hrun.
  rw (newPutter_run u h l b _ (set_Client (client_after cfg w) cfg));
    first by apply configs_world_after.
  rw world_after_service. cbn [fst snd]. split_and!.
  - by rw /set_sent /= world_after_sent.
  - by intros err ->.
  - intros r ->. by eexists.
Qed.

Lemma PutWriter_passes_headers_witness :
  or_default None = Some DefaultConfig /\
  configs world1 !! DefaultConfig = Some DefaultConfig_init /\
  eval (Url plain_rest (Some 1%positive) "key" (Some DefaultConfig)) world1 =
    Returned (mkURL "https" EmptyString None "bkt.s3.amazonaws.com" "/key"
                    EmptyString EmptyString) /\
  sent (exec (PutWriter plain_rest (Some 1%positive) "key" sse_header None) world1) =
    (sent world1 ++
     [{| Method := "POST";
         ReqURL := mkURL "https" EmptyString None "bkt.s3.amazonaws.com" "/key"
                         EmptyString EmptyString;
         ReqHeader := sse_header |}])%list.
Proof.
  split_and!; [done|by vm_compute..|].
  apply (PutWriter_passes_headers plain_rest (Some 1%positive) "key" sse_header None
           DefaultConfig DefaultConfig_init); [done|by vm_compute..].
Defined.

(** A run of [PutWriter]: the writer and the request carry the headers. *)
Example PutWriter_run_sse :
  p_header <$> putter_of
    (eval (PutWriter plain_rest (Some 1%positive) "key" sse_header None) world1)
    = Some sse_header /\
  ReqHeader <$> sent (exec (PutWriter plain_rest (Some 1%positive) "key" sse_header None) world1)
    = [sse_header].
Proof. split; by vm_compute. Qed.

(** ** [Url] and the panic *)

Lemma Url_run parse_rest lb path lc w cfg bk la a :
  configs w !! lc = Some cfg ->
  buckets w !! lb = Some bk ->
  Bucket_S3 bk = Some la ->
  s3s w !! la = Some a ->
  Url parse_rest (Some lb) path (Some lc) w =
  match url_Parse parse_rest (Sprintf_url (Scheme cfg) (Name bk) (Domain a) path) with
  | inl err => (w, Panicked (PanicError err))
  | inr u => (w, Returned u)
  end.
Proof.
  intros Hc Hb Hla Ha. rw /Url /bind /deref /= Hc Hb Hla /= Ha.
  by destruct (url_Parse _ _).
Qed.

Lemma split_cut_colon s :
  split_cut "#" (String ":" s) =
  (String ":" (split_cut "#" s).1, (split_cut "#" s).2).
Proof. rw /=. by destruct (split_cut "#" s). Qed.

Lemma url_Parse_no_scheme parse_rest s :
  url_Parse parse_rest (String ":" s) =
  inl (url_Error "parse" (String ":" (split_cut "#" s).1)
         (errorString
            (if stringContainsCTLByte (String ":" (split_cut "#" s).1)
             then "net/url: invalid control character in URL"
             else "missing protocol scheme"))).
Proof.
  rw /url_Parse split_cut_colon. by destruct (stringContainsCTLByte _).
Qed.

Lemma Sprintf_url_no_scheme name domain path :
  exists s, Sprintf_url EmptyString name domain path = String ":" s.
Proof. by eexists. Qed.

Lemma world_after_buckets l cfg w : buckets (world_after l cfg w) = buckets w.
Proof. rw /world_after. by destruct (Client cfg). Qed.

Lemma world_after_s3s l cfg w : s3s (world_after l cfg w) = s3s w.
Proof. rw /world_after. by destruct (Client cfg). Qed.

(** C9: [Url] has no error result.  Where the composed string
    "{scheme}://{name}.{domain}/{path}" parses, [Url] returns the parsed
    URL; where it does not, [Url] panics with the parser's error.  A
    configuration whose Scheme is empty always makes the parser fail, and
    [GetReader] and [PutWriter] called with it panic with the parser's
    error: "missing protocol scheme", unless the text before the fragment
    holds a control character, which the parser refuses first. *)
Theorem Url_returns_or_panics
    parse_rest (lb : loc) (path : string) (lc : loc) (w : World)
    (cfg : Config) (bk : Bucket) (la : loc) (a : S3) :
  configs w !! lc = Some cfg ->
  buckets w !! lb = Some bk ->
  Bucket_S3 bk = Some la ->
  s3s w !! la = Some a ->
  (forall u,
     url_Parse parse_rest (Sprintf_url (Scheme cfg) (Name bk) (Domain a) path) = inr u ->
     Url parse_rest (Some lb) path (Some lc) w = (w, Returned u)) /\
  (forall err,
     url_Parse parse_rest (Sprintf_url (Scheme cfg) (Name bk) (Domain a) path) = inl err ->
     Url parse_rest (Some lb) path (Some lc) w = (w, Panicked (PanicError err))) /\
  (Scheme cfg = EmptyString ->
   exists err,
     url_Parse parse_rest (Sprintf_url (Scheme cfg) (Name bk) (Domain a) path) = inl err /\
     eval (Url parse_rest (Some lb) path (Some lc)) w = Panicked (PanicError err) /\
     eval (GetReader parse_rest (Some lb) path (Some lc)) w = Panicked (PanicError err) /\
     (forall h,
        eval (PutWriter parse_rest (Some lb) path h (Some lc)) w =
        Panicked (PanicError err)) /\
     (stringContainsCTLByte
        (split_cut "#" (Sprintf_url (Scheme cfg) (Name bk) (Domain a) path)).1 = false ->
      err = url_Error "parse"
              (split_cut "#" (Sprintf_url (Scheme cfg) (Name bk) (Domain a) path)).1
              (errorString "missing protocol scheme")) /\
     (stringContainsCTLByte
        (split_cut "#" (Sprintf_url (Scheme cfg) (Name bk) (Domain a) path)).1 = true ->
      err = url_Error "parse"
              (split_cut "#" (Sprintf_url (Scheme cfg) (Name bk) (Domain a) path)).1
              (errorString "net/url: invalid control character in URL"))).
Proof.
  intros Hc Hb Hla Ha. split_and!.
  - intros u Hu. by rw (Url_run _ _ _ _ _ cfg bk la a) // Hu.
  - intros err He. by rw (Url_run _ _ _ _ _ cfg bk la a) // He.
  - intros Hs.
    assert (forall err,
              url_Parse parse_rest
                (Sprintf_url (Scheme cfg) (Name bk) (Domain a) path) = inl err ->
              eval (Url parse_rest (Some lb) path (Some lc)) w =
              Panicked (PanicError err)) as HU.
    { intros err He. by rw /eval (Url_run _ _ _ _ _ cfg bk la a) // He. }
    revert HU. rw Hs.
    destruct (Sprintf_url_no_scheme (Name bk) (Domain a) path) as [s ->].
    rw url_Parse_no_scheme split_cut_colon. cbn [fst]. intros HU.
    eexists. split; first done. specialize (HU _ eq_refl). split_and!.
    + done.
    + by rw /eval (GetReader_Url_panics parse_rest (Some lb) path (Some lc) lc cfg _ w eq_refl Hc HU).
    + intros h.
      by rw /eval (PutWriter_Url_panics parse_rest (Some lb) path h (Some lc) lc cfg _ w eq_refl Hc HU).
    + by intros ->.
    + by intros ->.
Qed.

Lemma Url_returns_or_panics_witness :
  configs world3 !! 2%positive = Some no_scheme_Config /\
  buckets world3 !! 1%positive = Some (mkBucket (Some 1%positive) "bkt") /\
  s3s world3 !! 1%positive = Some (mkS3 "s3.amazonaws.com" (mkKeys "AKID" "SECRET")) /\
  Scheme no_scheme_Config = EmptyString /\
  exists err,
    url_Parse plain_rest (Sprintf_url EmptyString "bkt" "s3.amazonaws.com" "key") =
      inl err /\
    eval (Url plain_rest (Some 1%positive) "key" (Some 2%positive)) world3 =
      Panicked (PanicError err) /\
    eval (GetReader plain_rest (Some 1%positive) "key" (Some 2%positive)) world3 =
      Panicked (PanicError err) /\
    (forall h,
       eval (PutWriter plain_rest (Some 1%positive) "key" h (Some 2%positive)) world3 =
       Panicked (PanicError err)) /\
    (stringContainsCTLByte
       (split_cut "#" (Sprintf_url EmptyString "bkt" "s3.amazonaws.com" "key")).1 = false ->
     err = url_Error "parse"
             (split_cut "#" (Sprintf_url EmptyString "bkt" "s3.amazonaws.com" "key")).1
             (errorString "missing protocol scheme")) /\
    (stringContainsCTLByte
       (split_cut "#" (Sprintf_url EmptyString "bkt" "s3.amazonaws.com" "key")).1 = true ->
     err = url_Error "parse"
             (split_cut "#" (Sprintf_url EmptyString "bkt" "s3.amazonaws.com" "key")).1
             (errorString "net/url: invalid control character in URL")).
Proof.
  split_and!; [by vm_compute..|done|].
  apply (Url_returns_or_panics plain_rest 1%positive "key" 2%positive world3
           no_scheme_Config (mkBucket (Some 1%positive) "bkt") 1%positive
           (mkS3 "s3.amazonaws.com" (mkKeys "AKID" "SECRET")));
    by vm_compute.
Defined.

(** The two outcomes of [Url] on concrete inputs. *)
Example Url_run_https :
  eval (Url plain_rest (Some 1%positive) "a/b.txt" (Some DefaultConfig)) world1 =
  Returned (mkURL "https" EmptyString None "bkt.s3.amazonaws.com" "/a/b.txt"
                  EmptyString EmptyString).
Proof. by vm_compute. Qed.

Example GetReader_run_control_character :
  eval (GetReader plain_rest (Some 1%positive) (String "a" (String "127" "b"))
          (Some 2%positive)) world3 =
  Panicked (PanicError
              (url_Error "parse"
                 ("://bkt.s3.amazonaws.com/" +:+ String "a" (String "127" "b"))
                 (errorString "net/url: invalid control character in URL"))).
Proof. by vm_compute. Qed.

Example GetReader_run_no_scheme :
  eval (GetReader plain_rest (Some 1%positive) "key" (Some 2%positive)) world3 =
  Panicked (PanicError (url_Error "parse" "://bkt.s3.amazonaws.com/key"
                          (errorString "missing protocol scheme"))).
Proof. by vm_compute. Qed.

(** ** The download stream delivers the parts in index order *)

Module DownloadFacts.
Import Download.

Section Stream.

Variable parts : list (list byte).

Lemma buffered_start : buffered parts [] start.
Proof.
  split; rw /start /=.
  - intros j p. by rw lookup_empty.
  - done.
  - lia.
  - intros j Hj. by apply elem_of_nil in Hj.
Qed.

Lemma buffered_step seen r p :
  buffered parts seen r ->
  buffer r !! next r = Some p ->
  buffered parts seen
    (mkReorder (S (next r)) (delete (next r) (buffer r)) (delivered r ++ p)).
Proof.
  intros [Hb Hd Hn Hs] Hp. pose proof (Hb _ _ Hp) as Hpart.
  split; cbn [next buffer delivered].
  - intros j q [_ Hq]%lookup_delete_Some. by apply Hb.
  - rw (take_S_r _ _ _ Hpart) concat_app Hd /=. by rw app_nil_r.
  - by apply lookup_lt_Some in Hpart.
  - intros j Hj Hlt. destruct (decide (j = next r)) as [->|Hne]; first (left; lia).
    destruct (Hs j Hj Hlt) as [?|Hsome]; first (left; lia).
    right. by rw lookup_delete_ne.
Qed.

(** [drain] keeps the invariant, and with the size of the buffer as fuel
    it stops only where the next expected part is missing. *)
Lemma buffered_drain fuel seen r :
  buffered parts seen r -> buffered parts seen (drain fuel r).
Proof.
  revert r. induction fuel as [|fuel IH]; intros r Hr; first done.
  cbn [drain]. destruct (buffer r !! next r) as [p|] eqn:Hp; last done.
  by apply IH, buffered_step.
Qed.

Lemma drain_stops fuel r :
  size (buffer r) <= fuel ->
  buffer (drain fuel r) !! next (drain fuel r) = None.
Proof.
  revert r. induction fuel as [|fuel IH]; intros r Hsz.
  - cbn [drain]. assert (buffer r = ∅) as ->; last by rw lookup_empty.
    apply map_size_empty_inv. lia.
  - cbn [drain]. destruct (buffer r !! next r) as [p|] eqn:Hp; last done.
    apply IH. cbn [buffer]. rw map_size_delete Hp /=. lia.
Qed.

Lemma buffered_arrive seen r i p :
  parts !! i = Some p ->
  buffered parts seen r ->
  buffered parts (seen ++ [i]) (arrive i p r).
Proof.
  intros Hi [Hb Hd Hn Hs]. rw /arrive. apply buffered_drain.
  split; cbn [next buffer delivered]; try done.
  - intros j q [ [<- <-] | [_ Hq] ]%lookup_insert_Some; by [|apply Hb].
  - intros j [Hj | ->%list_elem_of_singleton]%elem_of_app Hlt.
    + destruct (Hs j Hj Hlt) as [?|Hsome]; first by left.
      right. apply lookup_insert_is_Some'. by right.
    + right. apply lookup_insert_is_Some'. by left.
Qed.

Lemma arrive_stops i p r :
  buffer (arrive i p r) !! next (arrive i p r) = None.
Proof. rw /arrive. by apply drain_stops. Qed.

Lemma buffered_receive seen r i :
  buffered parts seen r ->
  buffer r !! next r = None ->
  buffered parts (seen ++ [i]) (receive parts r i) /\
  buffer (receive parts r i) !! next (receive parts r i) = None.
Proof.
  intros Hr Hstop. rw /receive. destruct (parts !! i) as [p|] eqn:Hi.
  - split; [by apply buffered_arrive | apply arrive_stops].
  - split; last done. destruct Hr as [Hb Hd Hn Hs]. split; try done.
    intros j [Hj | ->%list_elem_of_singleton]%elem_of_app Hlt; first by apply Hs.
    apply lookup_ge_None in Hi. lia.
Qed.

Lemma buffered_download arrivals :
  buffered parts arrivals (download parts arrivals) /\
  buffer (download parts arrivals) !! next (download parts arrivals) = None.
Proof.
  induction arrivals as [|i arrivals [IH1 IH2]] using rev_ind.
  - split; [apply buffered_start | done].
  - rw /download fold_left_app /= -/(download parts arrivals).
    by apply buffered_receive.
Qed.

(** Whatever the order of arrival, and whatever has arrived so far, the
    caller has read the parts below the cursor, in index order. *)
Lemma download_delivers_prefix arrivals :
  delivered (download parts arrivals) =
  concat (take (next (download parts arrivals)) parts).
Proof. by destruct (buffered_download arrivals) as [[] _]. Qed.

Lemma download_complete arrivals :
  (forall j, j < length parts -> j ∈ arrivals) ->
  next (download parts arrivals) = length parts /\
  delivered (download parts arrivals) = concat parts.
Proof.
  intros Hall. destruct (buffered_download arrivals) as [[Hb Hd Hn Hs] Hstop].
  assert (next (download parts arrivals) = length parts) as Hnext.
  { destruct (decide (next (download parts arrivals) < length parts)) as [Hlt|]; last lia.
    destruct (Hs _ (Hall _ Hlt) Hlt) as [?|[p Hp]]; first lia. congruence. }
  split; first done. by rw Hd Hnext take_ge.
Qed.

End Stream.

Lemma concat_chunks fuel ps (l : list byte) :
  0 < ps -> length l <= fuel -> concat (chunks fuel ps l) = l.
Proof.
  intros Hps. revert l. induction fuel as [|fuel IH]; intros l Hl.
  - destruct l; [done | simpl in Hl; lia].
  - destruct l as [|x l]; first done.
    cbn [chunks concat]. rw IH.
    + rw length_drop /=. simpl in Hl. lia.
    + by rw take_drop.
Qed.

(** With a positive part size the parts of an object make up the object. *)
Lemma concat_object_parts ps body :
  0 < ps -> concat (object_parts ps body) = body.
Proof. intros Hps. by apply concat_chunks. Qed.

(** C5: whatever the order in which the responses for the parts arrive,
    the bytes read from the reader are the parts of the object in index
    order. *)
Theorem read_all_in_part_order (g : getter) (body : list byte) (arrivals : list nat) :
  arrivals ≡ₚ seq 0 (length (getter_parts g body)) ->
  read_all g body arrivals = concat (getter_parts g body).
Proof.
  intros Hperm. rw /read_all. apply download_complete.
  intros j Hj. rw Hperm. apply elem_of_seq. lia.
Qed.

Lemma read_all_in_part_order_witness :
  [2; 0; 1] ≡ₚ seq 0 (length (getter_parts small_parts_getter five_bytes)) /\
  read_all small_parts_getter five_bytes [2; 0; 1] =
    concat (getter_parts small_parts_getter five_bytes).
Proof.
  assert ([2; 0; 1] ≡ₚ seq 0 (length (getter_parts small_parts_getter five_bytes)))
    as Hperm by (apply (bool_decide_unpack _); by vm_compute).
  split; first done.
  by apply (read_all_in_part_order small_parts_getter five_bytes [2; 0; 1]).
Defined.

(** The reader of the witness is the one [GetReader] returns, and the
    stream on it: part 2 arrives first and waits for parts 0 and 1. *)
Example GetReader_run_small_parts :
  getter_of (eval (GetReader plain_rest (Some 1%positive) "key" (Some 2%positive)) world4)
    = Some small_parts_getter.
Proof. by vm_compute. Qed.

Example download_run_reordered :
  getter_parts small_parts_getter five_bytes = [[x01; x02]; [x03; x04]; [x05]] /\
  delivered (download (getter_parts small_parts_getter five_bytes) [2]) = [] /\
  delivered (download (getter_parts small_parts_getter five_bytes) [2; 0]) = [x01; x02] /\
  delivered (download (getter_parts small_parts_getter five_bytes) [2; 0; 1]) = five_bytes.
Proof. split_and!; by vm_compute. Qed.

End DownloadFacts.

(** * Further properties of the facade *)

(** ** Constructors *)

(** X1: the URL of a bucket made by [New(d, k).Bucket(n)] is parsed from
    "{scheme}://{n}.{domain}/{path}", where the domain is [d], or the
    value of the variable [DefaultDomain] at the call when [d] is empty;
    the keys play no part in it. *)
Theorem account_bucket_Url_composes
    parse_rest (d : string) (k : Keys) (n path : string) (lc : loc)
    (cfg : Config) (w : World) :
  configs w !! lc = Some cfg ->
  eval (account_bucket_Url parse_rest d k n path (Some lc)) w =
  match url_Parse parse_rest
          (Sprintf_url (Scheme cfg) n
             (if String.eqb d EmptyString then DefaultDomain w else d) path) with
  | inl err => Panicked (PanicError err)
  | inr u => Returned u
  end.
Proof.
  intros Hc. rw /eval /account_bucket_Url {1}/bind New_run {1}/bind /S3_Bucket.
  rw (Url_run parse_rest _ path lc _ cfg
        (mkBucket (Some (new_loc (s3s w))) n) (new_loc (s3s w))
        (mkS3 (if String.eqb d EmptyString then DefaultDomain w else d) k)).
  - done.
  - cbn [buckets set_buckets set_s3s]. by rw lookup_insert_eq.
  - done.
  - cbn [s3s set_buckets set_s3s]. by rw lookup_insert_eq.
  - cbn [Scheme Name Domain]. by destruct (url_Parse _ _).
Qed.

Lemma account_bucket_Url_composes_witness :
  configs world2 !! 2%positive = Some caller_Config /\
  eval (account_bucket_Url plain_rest "objects.example.org" (mkKeys "AKID" "SECRET")
          "logs" "2013/app.log" (Some 2%positive)) world2 =
  match url_Parse plain_rest
          (Sprintf_url "http" "logs" "objects.example.org" "2013/app.log") with
  | inl err => Panicked (PanicError err)
  | inr u => Returned u
  end.
Proof.
  split; first by vm_compute.
  apply (account_bucket_Url_composes plain_rest "objects.example.org"
           (mkKeys "AKID" "SECRET") "logs" "2013/app.log" 2%positive caller_Config world2).
  by vm_compute.
Defined.

(** X2: two calls of [New] return two different handles, each account
    holds the keys its call was given and the domain it was given (the
    value of [DefaultDomain] for an empty one), and every account that
    existed before is as it was. *)
Theorem New_twice_distinct (d1 : string) (k1 : Keys) (d2 : string) (k2 : Keys) (w : World) :
  exists l1 l2,
    eval (two_accounts d1 k1 d2 k2) w = Returned (l1, l2) /\
    l1 <> l2 /\
    s3s (exec (two_accounts d1 k1 d2 k2) w) !! l1 =
      Some (mkS3 (if String.eqb d1 EmptyString then DefaultDomain w else d1) k1) /\
    s3s (exec (two_accounts d1 k1 d2 k2) w) !! l2 =
      Some (mkS3 (if String.eqb d2 EmptyString then DefaultDomain w else d2) k2) /\
    forall l a, s3s w !! l = Some a ->
                s3s (exec (two_accounts d1 k1 d2 k2) w) !! l = Some a.
Proof.
  set (l1 := new_loc (s3s w)).
  set (a1 := mkS3 (if String.eqb d1 EmptyString then DefaultDomain w else d1) k1).
  set (l2 := new_loc (<[l1 := a1]> (s3s w))).
  assert (l1 <> l2) as Hne.
  { intros Heq. pose proof (new_loc_fresh (<[l1 := a1]> (s3s w))) as Hf.
    rw -/l2 -Heq lookup_insert_eq in Hf. done. }
  exists l1, l2. rw /eval /exec /two_accounts {1}/bind New_run {1}/bind New_run /=.
  rw -/l1 -/a1 -/l2. split_and!; try done.
  - by rw lookup_insert_ne // lookup_insert_eq.
  - by rw lookup_insert_eq.
  - intros l a Hl.
    assert (l <> l1) by (intros ->; rw /l1 new_loc_fresh in Hl; done).
    assert (l <> l2).
    { intros ->. pose proof (new_loc_fresh (<[l1 := a1]> (s3s w))) as Hf.
      rw -/l2 lookup_insert_ne // Hl in Hf. done. }
    by rw !lookup_insert_ne.
Qed.

(** ** [Url] on nil pointers, and panics under the entry points *)

(** X3: [Url] dereferences what it is given: with a nil configuration
    (which it does not replace by the default one), a nil bucket, or a
    bucket whose account is nil, it panics with a nil dereference, and
    leaves the world as it was. *)
Theorem Url_nil_dereference parse_rest (path : string) (w : World) :
  (forall b, Url parse_rest b path None w = (w, Panicked NilDereference)) /\
  (forall lc cfg,
     configs w !! lc = Some cfg ->
     Url parse_rest None path (Some lc) w = (w, Panicked NilDereference)) /\
  (forall lc cfg lb n,
     configs w !! lc = Some cfg ->
     buckets w !! lb = Some (mkBucket None n) ->
     Url parse_rest (Some lb) path (Some lc) w = (w, Panicked NilDereference)).
Proof.
  split_and!.
  - done.
  - intros lc cfg Hc. by rw /Url /bind /deref /= Hc.
  - intros lc cfg lb n Hc Hb. by rw /Url /bind /deref /= Hc Hb.
Qed.

(** X4: when [Url] panics for the bucket, the path and the configuration
    in effect, [GetReader] and [PutWriter] panic with the same value; by
    then a nil Client of the configuration has been assigned, and no
    request has been sent. *)
Theorem Url_panic_reaches_entry_points
    parse_rest (b : pointer) (path : string) (h : Header) (c : pointer)
    (l : loc) (cfg : Config) (p : panic_value) (w : World) :
  or_default c = Some l ->
  configs w !! l = Some cfg ->
  eval (Url parse_rest b path (Some l)) w = Panicked p ->
  eval (GetReader parse_rest b path c) w = Panicked p /\
  eval (PutWriter parse_rest b path h c) w = Panicked p /\
  forall w', w' = exec (GetReader parse_rest b path c) w \/
             w' = exec (PutWriter parse_rest b path h c) w ->
    sent w' = sent w /\
    configs w' !! l = Some (set_Client (client_after cfg w) cfg) /\
    is_Some (Client (set_Client (client_after cfg w) cfg)).
Proof.
  intros Hc Hl Hp. rw -(eval_Url_world_after parse_rest b path l cfg w Hl) in Hp.
  assert (GetReader parse_rest b path c w = (world_after l cfg w, Panicked p)) as HG
    by by rw (GetReader_run parse_rest b path c l cfg) // Hp.
  assert (PutWriter parse_rest b path h c w = (world_after l cfg w, Panicked p)) as HP
    by by rw (PutWriter_run parse_rest b path h c l cfg) // Hp.
  rw /eval /exec HG HP. split_and!; try done.
  intros w' Hw'. assert (w' = world_after l cfg w) as -> by by destruct Hw'.
  split_and!.
  - rw /world_after. by destruct (Client cfg).
  - by apply configs_world_after.
  - rw /client_after /=. destruct (Client cfg); by eexists.
Qed.

Lemma Url_panic_reaches_entry_points_witness :
  or_default (Some 2%positive) = Some 2%positive /\
  configs world2 !! 2%positive = Some caller_Config /\
  eval (Url plain_rest None "key" (Some 2%positive)) world2 = Panicked NilDereference /\
  eval (GetReader plain_rest None "key" (Some 2%positive)) world2 = Panicked NilDereference.
Proof.
  split_and!; [done|by vm_compute..|].
  apply (Url_panic_reaches_entry_points plain_rest None "key" ∅ (Some 2%positive)
           2%positive caller_Config NilDereference world2); [done|by vm_compute..].
Defined.

(** ** The scheme step of the parser *)

Lemma is_letter_plain c :
  is_letter c = true -> Ascii.eqb c "#" = false /\ is_CTL c = false.
Proof. destruct c as [[] [] [] [] [] [] [] []]; by vm_compute. Qed.

Lemma all_letters_plain s :
  all_letters s = true -> occurs "#" s = false /\ stringContainsCTLByte s = false.
Proof.
  induction s as [|c s IH]; first done.
  cbn [all_letters occurs stringContainsCTLByte].
  intros [Hc Hs]%andb_true_iff. destruct (is_letter_plain c Hc) as [-> ->].
  by destruct (IH Hs) as [-> ->].
Qed.

Lemma append_cons a (s t : string) : String a s +:+ t = String a (s +:+ t).
Proof. done. Qed.

Lemma split_cut_app s t :
  occurs "#" s = false ->
  split_cut "#" (s +:+ t) = (s +:+ (split_cut "#" t).1, (split_cut "#" t).2).
Proof.
  induction s as [|c s IH].
  - intros _. change (EmptyString +:+ t) with t. by destruct (split_cut "#" t).
  - rw append_cons. cbn [occurs split_cut]. intros [Hc Hs]%orb_false_elim.
    by rw Hc (IH Hs).
Qed.

Lemma stringContainsCTLByte_app s t :
  stringContainsCTLByte (s +:+ t) =
  stringContainsCTLByte s || stringContainsCTLByte t.
Proof.
  induction s as [|c s IH]; first done.
  rw append_cons. cbn [stringContainsCTLByte]. by rw IH orb_assoc.
Qed.

Lemma substring_prefix (s t : string) :
  String.substring 0 (String.length s) (s +:+ t) = s.
Proof.
  induction s as [|c s IH]; first by destruct t.
  rw append_cons. cbn [String.length String.substring]. by rw IH.
Qed.

Lemma getscheme_at_letters rawurl s r i :
  all_letters s = true -> 0 < i + String.length s ->
  getscheme_at rawurl i (s +:+ String ":" r) =
  inr (String.substring 0 (i + String.length s) rawurl, r).
Proof.
  revert i. induction s as [|c s IH]; intros i Hs Hi.
  - change (EmptyString +:+ String ":" r) with (String ":" r).
    cbn [String.length] in *. rw Nat.add_0_r in Hi |- *.
    destruct i as [|i]; first lia. done.
  - rw append_cons. cbn [all_letters getscheme_at String.length] in *.
    apply andb_true_iff in Hs as [-> Hs]. rw IH //; first lia.
    by rw Nat.add_succ_r.
Qed.

Lemma getscheme_letters s r :
  all_letters s = true -> s <> EmptyString ->
  getscheme (s +:+ String ":" r) = inr (s, r).
Proof.
  intros Hs Hne. rw /getscheme getscheme_at_letters //.
  - destruct s; [done | cbn [String.length]; lia].
  - by rw substring_prefix.
Qed.

(** X5: with a Scheme made of letters (http, https) the scheme step of
    the parser succeeds: [Url] hands the rest of the parser that Scheme
    and the text "//{name}.{domain}/{path}" up to the first fragment
    mark, with what follows the mark as the fragment, and returns or
    panics as the rest of the parser answers; when that text holds a
    control character, [Url] panics with "invalid control character". *)
Theorem Url_scheme_step
    parse_rest (lb : loc) (path : string) (lc : loc) (w : World)
    (cfg : Config) (bk : Bucket) (la : loc) (a : S3) (t f : string) :
  configs w !! lc = Some cfg ->
  buckets w !! lb = Some bk ->
  Bucket_S3 bk = Some la ->
  s3s w !! la = Some a ->
  all_letters (Scheme cfg) = true ->
  Scheme cfg <> EmptyString ->
  split_cut "#" (Name bk +:+ "." +:+ Domain a +:+ "/" +:+ path) = (t, f) ->
  (stringContainsCTLByte t = false ->
   Url parse_rest (Some lb) path (Some lc) w =
   match parse_rest (Scheme cfg +:+ "://" +:+ t) (Scheme cfg) ("//" +:+ t) f with
   | inl err => (w, Panicked (PanicError err))
   | inr u => (w, Returned u)
   end) /\
  (stringContainsCTLByte t = true ->
   Url parse_rest (Some lb) path (Some lc) w =
   (w, Panicked (PanicError
                   (url_Error "parse" (Scheme cfg +:+ "://" +:+ t)
                      (errorString "net/url: invalid control character in URL"))))).
Proof.
  intros Hc Hb Hla Ha Hlet Hne Hcut.
  destruct (all_letters_plain _ Hlet) as [Hocc Hctl].
  assert (url_Parse parse_rest (Sprintf_url (Scheme cfg) (Name bk) (Domain a) path) =
          if stringContainsCTLByte t then
            inl (url_Error "parse" (Scheme cfg +:+ "://" +:+ t)
                   (errorString "net/url: invalid control character in URL"))
          else parse_rest (Scheme cfg +:+ "://" +:+ t) (Scheme cfg) ("//" +:+ t) f)
    as HP.
  { rw /url_Parse /Sprintf_url (split_cut_app _ _ Hocc).
    change ("://" +:+ Name bk +:+ "." +:+ Domain a +:+ "/" +:+ path)
      with (String ":" (String "/" (String "/"
              (Name bk +:+ "." +:+ Domain a +:+ "/" +:+ path)))).
    cbn [split_cut]. rw Hcut. cbn [fst snd Ascii.eqb Bool.eqb].
    rw stringContainsCTLByte_app Hctl.
    change (stringContainsCTLByte (String ":" (String "/" (String "/" t))))
      with (stringContainsCTLByte t).
    cbn [orb]. destruct (stringContainsCTLByte t); first done.
    by rw (getscheme_letters _ _ Hlet Hne). }
  rw (Url_run parse_rest lb path lc w cfg bk la a) // HP.
  split; by intros ->.
Qed.

Lemma Url_scheme_step_witness :
  configs world1 !! DefaultConfig = Some DefaultConfig_init /\
  buckets world1 !! 1%positive = Some (mkBucket (Some 1%positive) "bkt") /\
  s3s world1 !! 1%positive = Some (mkS3 "s3.amazonaws.com" (mkKeys "AKID" "SECRET")) /\
  all_letters "https" = true /\
  "https" <> EmptyString /\
  split_cut "#" ("bkt" +:+ "." +:+ "s3.amazonaws.com" +:+ "/" +:+ "a/b#c") =
    ("bkt.s3.amazonaws.com/a/b", "c") /\
  stringContainsCTLByte "bkt.s3.amazonaws.com/a/b" = false /\
  Url plain_rest (Some 1%positive) "a/b#c" (Some DefaultConfig) world1 =
  match plain_rest ("https" +:+ "://" +:+ "bkt.s3.amazonaws.com/a/b") "https"
                   ("//" +:+ "bkt.s3.amazonaws.com/a/b") "c" with
  | inl err => (world1, Panicked (PanicError err))
  | inr u => (world1, Returned u)
  end.
Proof.
  split_and!; [by vm_compute..|done|by vm_compute|by vm_compute|].
  apply (Url_scheme_step plain_rest 1%positive "a/b#c" DefaultConfig world1
           DefaultConfig_init (mkBucket (Some 1%positive) "bkt") 1%positive
           (mkS3 "s3.amazonaws.com" (mkKeys "AKID" "SECRET"))
           "bkt.s3.amazonaws.com/a/b" "c");
    by vm_compute.
Defined.

(** ** What sequences of calls leave alone *)

Lemma stores_run_call parse_rest k w l :
  or_default (call_Config k) = Some l ->
  stores (run_call parse_rest w k) =
  stores match configs w !! l with
         | Some cfg => world_after l cfg w
         | None => w
         end.
Proof.
  intros Hc. destruct (configs w !! l) as [cfg|] eqn:Hl.
  - destruct k as [b path c|b path h c]; cbn [run_call call_Config] in *.
    + by rw stores_GetReader (stores_ensure_Client c l cfg).
    + by rw stores_PutWriter (stores_ensure_Client c l cfg).
  - destruct k as [b path c|b path h c]; cbn [run_call call_Config] in *.
    + by rw stores_GetReader (stores_ensure_Client_unallocated c l).
    + by rw stores_PutWriter (stores_ensure_Client_unallocated c l).
Qed.

Lemma stores_s3s w w' : stores w = stores w' -> s3s w = s3s w'.
Proof. by intros [= ? _ _ _]. Qed.

Lemma stores_buckets w w' : stores w = stores w' -> buckets w = buckets w'.
Proof. by intros [= _ ? _ _]. Qed.

Lemma run_call_accounts_buckets parse_rest k w :
  s3s (run_call parse_rest w k) = s3s w /\
  buckets (run_call parse_rest w k) = buckets w.
Proof.
  destruct (or_default_is_Some (call_Config k)) as [l Hc].
  pose proof (stores_run_call parse_rest k w l Hc) as Hst.
  rw (stores_s3s _ _ Hst) (stores_buckets _ _ Hst).
  destruct (configs w !! l); last done.
  by rw world_after_s3s world_after_buckets.
Qed.

Lemma run_call_other_Config parse_rest k w l :
  or_default (call_Config k) <> Some l ->
  configs (run_call parse_rest w k) !! l = configs w !! l.
Proof.
  intros Hne. destruct (or_default_is_Some (call_Config k)) as [lc Hc].
  rw (stores_configs _ _ (stores_run_call parse_rest k w lc Hc)).
  destruct (configs w !! lc); last done.
  apply configs_world_after_ne. intros ->. by rw Hc in Hne.
Qed.

(** X6: a sequence of [GetReader] and [PutWriter] calls changes no account
    and no bucket, and it changes no configuration but those the calls
    run with: a configuration that no call of the sequence is given (for
    [DefaultConfig]: that no call is given, directly or as nil) is as it
    was. *)
Theorem calls_change_only_their_Config parse_rest (ks : list call) (w : World) :
  s3s (run_calls parse_rest ks w) = s3s w /\
  buckets (run_calls parse_rest ks w) = buckets w /\
  forall l,
    (forall k, k ∈ ks -> or_default (call_Config k) <> Some l) ->
    configs (run_calls parse_rest ks w) !! l = configs w !! l.
Proof.
  revert w. induction ks as [|k ks IH]; intros w; first done.
  destruct (IH (run_call parse_rest w k)) as (Hs & Hb & Hc).
  destruct (run_call_accounts_buckets parse_rest k w) as [Hs1 Hb1].
  rw /run_calls /= -/(run_calls parse_rest ks _). split_and!.
  - by rw Hs.
  - by rw Hb.
  - intros l Hl. rw Hc.
    + intros k' Hk'. apply Hl. by right.
    + apply run_call_other_Config, Hl. by left.
Qed.

(** A caller's own configuration shields [DefaultConfig]. *)
Example calls_with_own_Config_keep_DefaultConfig :
  configs (run_calls plain_rest
             [CallGetReader (Some 1%positive) "key" (Some 2%positive);
              CallPutWriter (Some 1%positive) "key" ∅ (Some 2%positive)] world2)
    !! DefaultConfig = Some DefaultConfig_init.
Proof. by vm_compute. Qed.

Lemma run_call_clients parse_rest k w :
  clients w ⊆ clients (run_call parse_rest w k).
Proof.
  destruct (or_default_is_Some (call_Config k)) as [l Hc].
  rw (stores_clients _ _ (stores_run_call parse_rest k w l Hc)).
  destruct (configs w !! l) as [cfg|]; last done.
  rw /world_after. destruct (Client cfg); first done.
  rw clients_install. apply insert_subseteq, new_loc_fresh.
Qed.

(** X7: no sequence of calls replaces or drops an HTTP client: every
    client there was before the calls is there after them, unchanged. *)
Theorem calls_keep_clients parse_rest (ks : list call) (w : World) :
  clients w ⊆ clients (run_calls parse_rest ks w).
Proof.
  revert w. induction ks as [|k ks IH]; intros w; first done.
  rw /run_calls /= -/(run_calls parse_rest ks _).
  etrans; [apply (run_call_clients parse_rest k)|apply IH].
Qed.

(** A configuration is settled when it has a client (or is not there). *)
Lemma run_call_settled parse_rest k w l :
  or_default (call_Config k) = Some l ->
  (forall cfg, configs w !! l = Some cfg -> is_Some (Client cfg)) ->
  stores (run_call parse_rest w k) = stores w.
Proof.
  intros Hc Hset. rw (stores_run_call parse_rest k w l Hc).
  destruct (configs w !! l) as [cfg|] eqn:Hl; last done.
  rw /world_after. by destruct (Hset cfg eq_refl) as [p ->].
Qed.

Lemma run_call_settles parse_rest k w l :
  or_default (call_Config k) = Some l ->
  forall cfg, configs (run_call parse_rest w k) !! l = Some cfg -> is_Some (Client cfg).
Proof.
  intros Hc cfg'. rw (stores_configs _ _ (stores_run_call parse_rest k w l Hc)).
  destruct (configs w !! l) as [cfg|] eqn:Hl; last by rw Hl.
  rw (configs_world_after l cfg w Hl). intros [= <-].
  rw /client_after /=. destruct (Client cfg); by eexists.
Qed.

Lemma run_calls_settled parse_rest ks w l :
  (forall k, k ∈ ks -> or_default (call_Config k) = Some l) ->
  (forall cfg, configs w !! l = Some cfg -> is_Some (Client cfg)) ->
  stores (run_calls parse_rest ks w) = stores w.
Proof.
  revert w. induction ks as [|k ks IH]; intros w Hks Hset; first done.
  assert (stores (run_call parse_rest w k) = stores w) as Hk.
  { apply (run_call_settled parse_rest k w l); [apply Hks; by left|done]. }
  rw /run_calls /= -/(run_calls parse_rest ks _). rw IH //.
  - intros k' Hk'. apply Hks. by right.
  - by rw (stores_configs _ _ Hk).
Qed.

(** X8: after one call with a configuration, further calls with the same
    configuration (nil counting as [DefaultConfig]) change none of the
    stores: the client the first call left in the configuration is the
    one they all use, and no other client is created. *)
Theorem later_calls_reuse_client
    parse_rest (k1 : call) (ks : list call) (w : World) :
  (forall k, k ∈ ks -> or_default (call_Config k) = or_default (call_Config k1)) ->
  stores (run_calls parse_rest (k1 :: ks) w) = stores (run_calls parse_rest [k1] w).
Proof.
  intros Hks. destruct (or_default_is_Some (call_Config k1)) as [l Hc].
  rw /run_calls /= -/(run_calls parse_rest ks _).
  apply (run_calls_settled parse_rest ks _ l).
  - intros k Hk. by rw Hks.
  - by apply run_call_settles.
Qed.

Lemma later_calls_reuse_client_witness :
  (forall k, k ∈ [CallPutWriter (Some 1%positive) "b" ∅ (Some DefaultConfig);
                  CallGetReader (Some 1%positive) "c" None] ->
     or_default (call_Config k) =
     or_default (call_Config (CallGetReader (Some 1%positive) "a" None))) /\
  stores (run_calls plain_rest
            [CallGetReader (Some 1%positive) "a" None;
             CallPutWriter (Some 1%positive) "b" ∅ (Some DefaultConfig);
             CallGetReader (Some 1%positive) "c" None] world1) =
  stores (run_calls plain_rest [CallGetReader (Some 1%positive) "a" None] world1).
Proof.
  assert (forall k, k ∈ [CallPutWriter (Some 1%positive) "b" ∅ (Some DefaultConfig);
                         CallGetReader (Some 1%positive) "c" None] ->
            or_default (call_Config k) =
            or_default (call_Config (CallGetReader (Some 1%positive) "a" None))) as Hks.
  { intros k Hk. repeat (apply elem_of_cons in Hk as [->|Hk]; first done).
    by apply elem_of_nil in Hk. }
  split; first done.
  by apply (later_calls_reuse_client plain_rest).
Defined.

(** ** A fragment mark in the path *)

Lemma split_cut_absent c s :
  occurs c s = false -> split_cut c s = (s, EmptyString).
Proof.
  induction s as [|a s IH]; first done.
  cbn [occurs split_cut]. intros [Ha Hs]%orb_false_elim. by rw Ha IH.
Qed.

Lemma split_cut_first c s f :
  occurs c s = false -> split_cut c (s +:+ String c f) = (s, f).
Proof.
  induction s as [|a s IH].
  - intros _. change (EmptyString +:+ String c f) with (String c f).
    cbn [split_cut]. by rw Ascii.eqb_refl.
  - rw append_cons. cbn [occurs split_cut]. intros [Ha Hs]%orb_false_elim.
    by rw Ha IH.
Qed.

Lemma append_assoc (s1 s2 s3 : string) : (s1 +:+ s2) +:+ s3 = s1 +:+ s2 +:+ s3.
Proof. induction s1 as [|a s1 IH]; first done. by rw !append_cons IH. Qed.

Lemma Sprintf_url_app scheme name domain path x :
  Sprintf_url scheme name domain (path +:+ x) =
  Sprintf_url scheme name domain path +:+ x.
Proof. rw /Sprintf_url. by rw !append_assoc. Qed.

(** X9: [Url] puts the path into the URL text as it is, so a fragment
    mark in it ends the path: where the text composed for [p] has no
    fragment mark, the URL of the path [p#f] is parsed exactly as the URL
    of [p], with [f] handed over as the fragment. *)
Theorem Url_cuts_path_at_fragment_mark
    parse_rest (lb : loc) (p f : string) (lc : loc) (w : World)
    (cfg : Config) (bk : Bucket) (la : loc) (a : S3) :
  configs w !! lc = Some cfg ->
  buckets w !! lb = Some bk ->
  Bucket_S3 bk = Some la ->
  s3s w !! la = Some a ->
  occurs "#" (Sprintf_url (Scheme cfg) (Name bk) (Domain a) p) = false ->
  Url parse_rest (Some lb) (p +:+ String "#" f) (Some lc) w =
  Url (fun u scheme rest _ => parse_rest u scheme rest f) (Some lb) p (Some lc) w.
Proof.
  intros Hc Hb Hla Ha Hocc.
  rw (Url_run parse_rest lb _ lc w cfg bk la a) //.
  rw (Url_run _ lb p lc w cfg bk la a) //.
  rw Sprintf_url_app /url_Parse.
  by rw (split_cut_first _ _ f Hocc) (split_cut_absent _ _ Hocc).
Qed.

Lemma Url_cuts_path_at_fragment_mark_witness :
  configs world1 !! DefaultConfig = Some DefaultConfig_init /\
  buckets world1 !! 1%positive = Some (mkBucket (Some 1%positive) "bkt") /\
  s3s world1 !! 1%positive = Some (mkS3 "s3.amazonaws.com" (mkKeys "AKID" "SECRET")) /\
  occurs "#" (Sprintf_url "https" "bkt" "s3.amazonaws.com" "notes") = false /\
  Url plain_rest (Some 1%positive) ("notes" +:+ String "#" "1.txt") (Some DefaultConfig) world1 =
  Url (fun u scheme rest _ => plain_rest u scheme rest "1.txt")
      (Some 1%positive) "notes" (Some DefaultConfig) world1.
Proof.
  split_and!; [by vm_compute..|].
  apply (Url_cuts_path_at_fragment_mark plain_rest 1%positive "notes" "1.txt"
           DefaultConfig world1 DefaultConfig_init (mkBucket (Some 1%positive) "bkt")
           1%positive (mkS3 "s3.amazonaws.com" (mkKeys "AKID" "SECRET")));
    by vm_compute.
Defined.

(** The object key "notes#1.txt" is asked for at the path "/notes". *)
Example Url_run_fragment_mark :
  eval (Url plain_rest (Some 1%positive) "notes#1.txt" (Some DefaultConfig)) world1 =
  Returned (mkURL "https" EmptyString None "bkt.s3.amazonaws.com" "/notes"
                  EmptyString "1.txt").
Proof. by vm_compute. Qed.
